(** * AI Lexicon (src/index.tsx): a shallow embedding and its properties

    The definitions follow the source file:

    - [JS]        the fragment of the JavaScript run time the code relies on:
                  strings as UTF-16 code units, exceptions, JSON values and
                  [JSON.parse];
    - [Base64]    [atob] and the utility [decode];
    - [Audio]     typed arrays, [AudioContext.createBuffer] and
                  [decodeAudioData];
    - [Lookup]    [performLookup], with the generative service as an oracle
                  and a log of the calls issued;
    - [Hydration] the start-up effect reading [localStorage];
    - [Notebook]  the save/unsave button, the remove button and the
                  flashcard navigator as a machine driven by UI events;
    - [Speech]    [initAudio] and [playTTS];
    - [Tutor]     [sendMessage];
    - [Story]     [generateStory];
    - [Setup]     [handleSetup] and [JSON.stringify] of the profile.

    The properties come after all the definitions, module by module. *)

From Stdlib Require Import ZArith QArith Qround List Ascii String Lia DecimalString.
From stdpp Require Import base option list gmap.

Open Scope Z_scope.

(* ================================================================== *)
(** * The JavaScript run time, as far as the source uses it            *)
(* ================================================================== *)

Module JS.

(** A JavaScript string is a sequence of UTF-16 code units. *)
Abbreviation jsstring := (list Z).

Definition code_unit (a : ascii) : Z := Z.of_N (N_of_ascii a).

(** [js "abc"] is the JavaScript string with the code units of the
    (ASCII) literal. *)
Definition js (s : string) : jsstring := map code_unit (list_ascii_of_string s).

(** [jsq] reads an apostrophe in the literal as a quotation mark, to write
    JSON texts: [jsq "{'a': 1}"] is the text of the object with key [a]. *)
Definition jsq (s : string) : jsstring :=
  map (fun c => if c =? 39 then 34 else c) (js s).

(** Closes a closed arithmetic side condition by evaluation. *)
Ltac evaluate :=
  repeat split; first [reflexivity | vm_compute; discriminate].

(** Exceptions the modelled paths can raise. [ServiceError] stands for a
    rejected promise of the generative service. *)
Inductive JSError :=
  | SyntaxError
  | TypeError
  | RangeError
  | InvalidCharacterError
  | NotSupportedError
  | IndexSizeError
  | ServiceError.

(** A computation that returns or throws. *)
Inductive Exc (A : Type) :=
  | Ok (a : A)
  | Throw (e : JSError).
Arguments Ok {A} a.
Arguments Throw {A} e.

#[global] Instance Exc_ret : MRet Exc := fun A a => Ok a.
#[global] Instance Exc_bind : MBind Exc := fun A B f m =>
  match m with
  | Ok a => f a
  | Throw e => Throw e
  end.
#[global] Instance Exc_fmap : FMap Exc := fun A B f m =>
  match m with
  | Ok a => Ok (f a)
  | Throw e => Throw e
  end.

(** [for (let i = 0; i < n; i++) body] with an integer bound: the values
    [i] takes, in order. *)
Definition indices (n : Z) : list Z := map Z.of_nat (seq 0 (Z.to_nat n)).

(** The same loop when the bound is any number: [i] runs while [i < bound],
    that is over the integers below the ceiling of [bound]. *)
Definition indices_below (bound : Q) : list Z := indices (Qceiling bound).

(** A loop whose body may throw. *)
Fixpoint forM {St} (body : Z -> St -> Exc St) (idx : list Z) (s : St) : Exc St :=
  match idx with
  | [] => Ok s
  | i :: idx' => s' ← body i s; forM body idx' s'
  end.

(** [Number.prototype.toString] on an integer below 1e21. *)
Definition Number_toString (n : Z) : jsstring :=
  js (NilZero.string_of_int (Z.to_int n)).

(** ** JSON values and [JSON.parse]

    What [JSON.parse] returns, plus [undefined] for a missing property. A
    number keeps the exact decimal value of its literal,
    [mantissa * 10^exponent]; the rounding to a double is not observed by
    any path modelled here. An object keeps its members as the text lists
    them; a later duplicate key overrides an earlier one when the object
    is read. *)
#[local] Set Warnings "-register-all".
Inductive JSValue :=
  | JUndefined
  | JNull
  | JBool (b : bool)
  | JNumber (mantissa exponent : Z)
  | JString (s : jsstring)
  | JArray (elements : list JSValue)
  | JObject (members : list (jsstring * JSValue)).

Definition is_json_whitespace (c : Z) : bool :=
  (c =? 9) || (c =? 10) || (c =? 13) || (c =? 32).

Fixpoint skip_ws (s : jsstring) : jsstring :=
  match s with
  | c :: s' => if is_json_whitespace c then skip_ws s' else s
  | [] => []
  end.

Definition is_digit (c : Z) : bool := (48 <=? c) && (c <=? 57).

Definition hex_value (c : Z) : option Z :=
  if is_digit c then Some (c - 48)
  else if (97 <=? c) && (c <=? 102) then Some (c - 87)
  else if (65 <=? c) && (c <=? 70) then Some (c - 55)
  else None.

(** The character a two-character escape stands for. *)
Definition unescape (c : Z) : option Z :=
  if c =? 34 then Some 34          (* quotation mark *)
  else if c =? 92 then Some 92     (* reverse solidus *)
  else if c =? 47 then Some 47     (* solidus *)
  else if c =? 98 then Some 8      (* b: backspace *)
  else if c =? 102 then Some 12    (* f: form feed *)
  else if c =? 110 then Some 10    (* n: line feed *)
  else if c =? 114 then Some 13    (* r: carriage return *)
  else if c =? 116 then Some 9     (* t: tab *)
  else None.

(** A string after its opening quote: its code units and the text after
    the closing quote. *)
Fixpoint parse_string_body (s : jsstring) : option (jsstring * jsstring) :=
  match s with
  | [] => None
  | c :: s' =>
      if c =? 34 then Some ([], s')
      else if c =? 92 then
        match s' with
        | [] => None
        | e :: s'' =>
            if e =? 117 then
              match s'' with
              | h1 :: h2 :: h3 :: h4 :: s3 =>
                  d1 ← hex_value h1; d2 ← hex_value h2;
                  d3 ← hex_value h3; d4 ← hex_value h4;
                  '(str, rest) ← parse_string_body s3;
                  Some ((d1 * 4096 + d2 * 256 + d3 * 16 + d4) :: str, rest)
              | _ => None
              end
            else
              u ← unescape e;
              '(str, rest) ← parse_string_body s'';
              Some (u :: str, rest)
        end
      else if c <? 32 then None
      else
        '(str, rest) ← parse_string_body s';
        Some (c :: str, rest)
  end.

(** The leading digits of a text, as digit values, and what follows. *)
Fixpoint take_digits (s : jsstring) : list Z * jsstring :=
  match s with
  | c :: s' =>
      if is_digit c then let '(ds, rest) := take_digits s' in ((c - 48) :: ds, rest)
      else ([], s)
  | [] => ([], [])
  end.

Definition digits_value (ds : list Z) : Z := foldl (fun n d => 10 * n + d) 0 ds.

(** number = [-] int [frac] [exp] *)
Definition parse_number (s : jsstring) : option (JSValue * jsstring) :=
  let '(negative, s1) :=
    match s with
    | c :: s' => if c =? 45 then (true, s') else (false, s)
    | [] => (false, s)
    end in
  let '(int, s2) := take_digits s1 in
  match int with
  | [] => None
  | d :: more =>
      if (d =? 0) && negb (Nat.eqb (List.length more) 0) then None
      else
        frac ← match s2 with
               | c :: s' =>
                   if c =? 46 then
                     let '(fs, rest) := take_digits s' in
                     match fs with [] => None | _ => Some (fs, rest) end
                   else Some ([], s2)
               | [] => Some ([], s2)
               end;
        let '(fs, s3) := frac in
        ex ← match s3 with
             | c :: s' =>
                 if (c =? 101) || (c =? 69) then
                   let '(eneg, s'') :=
                     match s' with
                     | sg :: t =>
                         if sg =? 45 then (true, t)
                         else if sg =? 43 then (false, t)
                         else (false, s')
                     | [] => (false, s')
                     end in
                   let '(es, rest) := take_digits s'' in
                   match es with
                   | [] => None
                   | _ => Some ((if eneg then - digits_value es else digits_value es), rest)
                   end
                 else Some (0, s3)
             | [] => Some (0, s3)
             end;
        let '(e, s4) := ex in
        let m := digits_value (int ++ fs) in
        Some (JNumber (if negative then - m else m) (e - Z.of_nat (List.length fs)), s4)
  end.

(** If [s] starts with [lit], the rest. *)
Fixpoint strip_prefix (lit s : jsstring) : option jsstring :=
  match lit, s with
  | [], _ => Some s
  | l :: lit', c :: s' => if l =? c then strip_prefix lit' s' else None
  | _ :: _, [] => None
  end.

(** The recursive-descent parser. Every level of the recursion has read at
    least one character, so a fuel above the length of the text is never
    exhausted. *)
Fixpoint parse_value (fuel : nat) (s : jsstring) : option (JSValue * jsstring) :=
  match fuel with
  | O => None
  | S fuel' =>
      match skip_ws s with
      | [] => None
      | c :: s' =>
          if c =? 123 then
            match skip_ws s' with
            | c2 :: s2 =>
                if c2 =? 125 then Some (JObject [], s2)
                else parse_members fuel' (c2 :: s2) []
            | [] => None
            end
          else if c =? 91 then
            match skip_ws s' with
            | c2 :: s2 =>
                if c2 =? 93 then Some (JArray [], s2)
                else parse_elements fuel' (c2 :: s2) []
            | [] => None
            end
          else if c =? 34 then
            '(str, rest) ← parse_string_body s'; Some (JString str, rest)
          else if c =? 116 then
            rest ← strip_prefix (js "rue") s'; Some (JBool true, rest)
          else if c =? 102 then
            rest ← strip_prefix (js "alse") s'; Some (JBool false, rest)
          else if c =? 110 then
            rest ← strip_prefix (js "ull") s'; Some (JNull, rest)
          else parse_number (c :: s')
      end
  end
with parse_elements (fuel : nat) (s : jsstring) (acc : list JSValue)
  : option (JSValue * jsstring) :=
  match fuel with
  | O => None
  | S fuel' =>
      '(v, rest) ← parse_value fuel' s;
      match skip_ws rest with
      | c :: rest' =>
          if c =? 44 then parse_elements fuel' rest' (acc ++ [v])
          else if c =? 93 then Some (JArray (acc ++ [v]), rest')
          else None
      | [] => None
      end
  end
with parse_members (fuel : nat) (s : jsstring) (acc : list (jsstring * JSValue))
  : option (JSValue * jsstring) :=
  match fuel with
  | O => None
  | S fuel' =>
      match skip_ws s with
      | q :: s1 =>
          if q =? 34 then
            '(key, s2) ← parse_string_body s1;
            match skip_ws s2 with
            | colon :: s3 =>
                if colon =? 58 then
                  '(v, rest) ← parse_value fuel' s3;
                  match skip_ws rest with
                  | c :: rest' =>
                      if c =? 44 then parse_members fuel' rest' (acc ++ [(key, v)])
                      else if c =? 125 then Some (JObject (acc ++ [(key, v)]), rest')
                      else None
                  | [] => None
                  end
                else None
            | [] => None
            end
          else None
      | [] => None
      end
  end.

(** [JSON.parse(text)]: the value, or [SyntaxError]. *)
Definition JSON_parse (text : jsstring) : Exc JSValue :=
  match parse_value (S (List.length text)) text with
  | Some (v, rest) =>
      match skip_ws rest with
      | [] => Ok v
      | _ :: _ => Throw SyntaxError
      end
  | None => Throw SyntaxError
  end.

(** The value when the text parses. *)
Definition parse_result (text : jsstring) : option JSValue :=
  match JSON_parse text with
  | Ok v => Some v
  | Throw _ => None
  end.

(** ** Reading and spreading values *)

(** The member of an object under [key]: the last one the text gave. *)
Fixpoint lookup_member (key : jsstring) (members : list (jsstring * JSValue))
  : option JSValue :=
  match members with
  | [] => None
  | (k, v) :: rest =>
      match lookup_member key rest with
      | Some v' => Some v'
      | None => if bool_decide (k = key) then Some v else None
      end
  end.

(** [v.key] for a key that no prototype defines (the source reads
    [definition], [native] and [target]): the own property or [undefined];
    reading from [null] or [undefined] throws. *)
Definition Get (v : JSValue) (key : jsstring) : Exc JSValue :=
  match v with
  | JUndefined | JNull => Throw TypeError
  | JObject members => Ok (default JUndefined (lookup_member key members))
  | _ => Ok JUndefined
  end.

(** Whether [ToString(v)] returns, for a value made by [JSON.parse]. An
    object is converted by its [toString] and [valueOf]: an own property
    [toString] is never a function here, and [valueOf] gives back the object,
    so the conversion throws; without it [Object.prototype.toString]
    answers. An array is converted by [join], which converts every element
    but [null] and [undefined]. Every other value has a string. *)
Fixpoint has_string (v : JSValue) : bool :=
  match v with
  | JObject members =>
      match lookup_member (js "toString") members with
      | Some _ => false
      | None => true
      end
  | JArray elements => forallb has_string elements
  | _ => true
  end.

(** A value interpolated in a template string: the value, once its
    conversion to a string has returned; a [TypeError] when it has no
    string. The text of the string is not computed: a prompt keeps the
    values interpolated in it. *)
Definition template_value (v : JSValue) : Exc JSValue :=
  if has_string v then Ok v else Throw TypeError.

(** The own enumerable properties a spread [{...v}] copies, in order. *)
Definition own_properties (v : JSValue) : list (jsstring * JSValue) :=
  match v with
  | JObject members => members
  | JArray elements =>
      imap (fun i e => (Number_toString (Z.of_nat i), e)) elements
  | JString s =>
      imap (fun i c => (Number_toString (Z.of_nat i), JString [c])) s
  | _ => []
  end.

(** An object under construction, as a map from keys to values. *)
Abbreviation JSObject := (gmap jsstring JSValue).

(** [{...v}] *)
Definition spread (v : JSValue) : JSObject :=
  foldl (fun o kv => <[kv.1 := kv.2]> o) ∅ (own_properties v).

(** [o.key] on such an object. *)
Definition prop (o : JSObject) (key : jsstring) : JSValue :=
  default JUndefined (o !! key).

(** [x || fallback] on an optional string: [undefined] and [""] are falsy. *)
Definition or_else (x : option jsstring) (fallback : jsstring) : jsstring :=
  match x with
  | Some (c :: s) => c :: s
  | _ => fallback
  end.

End JS.
Import JS.

(* ================================================================== *)
(** * Base64: [atob] and [decode]                                      *)
(* ================================================================== *)

Module Base64.

(** ** [atob]: the forgiving-base64 decode of the HTML standard *)

Definition is_ascii_whitespace (c : Z) : bool :=
  (c =? 9) || (c =? 10) || (c =? 12) || (c =? 13) || (c =? 32).

(** Value of a character of the base64 alphabet. *)
Definition base64_value (c : Z) : option Z :=
  if (65 <=? c) && (c <=? 90) then Some (c - 65)
  else if (97 <=? c) && (c <=? 122) then Some (c - 71)
  else if (48 <=? c) && (c <=? 57) then Some (c + 4)
  else if c =? 43 then Some 62
  else if c =? 47 then Some 63
  else None.

(** Drop one trailing [=], if there is one. *)
Definition strip_equals (data : jsstring) : jsstring :=
  match last data with
  | Some c => if c =? 61 then removelast data else data
  | None => data
  end.

(** "If data ends with one or two U+003D (=) code points, remove them." *)
Definition strip_padding (data : jsstring) : jsstring :=
  strip_equals (strip_equals data).

(** The bit buffer of the standard, four characters at a time: 24 bits give
    three bytes; 18 left-over bits give two (the last two bits dropped), 12
    give one (the last four dropped). *)
Fixpoint decode_sextets (l : list Z) : list Z :=
  match l with
  | a :: b :: c :: d :: rest =>
      let n := a * 262144 + b * 4096 + c * 64 + d in
      (n / 65536) mod 256 :: (n / 256) mod 256 :: n mod 256 :: decode_sextets rest
  | [a; b; c] =>
      let n := (a * 4096 + b * 64 + c) / 4 in
      [(n / 256) mod 256; n mod 256]
  | [a; b] =>
      let n := (a * 64 + b) / 16 in
      [n mod 256]
  | _ => []
  end.

(** [atob(data)]: the binary string, or [InvalidCharacterError]. *)
Definition atob (data : jsstring) : Exc jsstring :=
  let data := List.filter (fun c => negb (is_ascii_whitespace c)) data in
  let data :=
    if Z.of_nat (List.length data) mod 4 =? 0 then strip_padding data else data in
  if Z.of_nat (List.length data) mod 4 =? 1 then Throw InvalidCharacterError
  else match mapM base64_value data with
       | Some sextets => Ok (decode_sextets sextets)
       | None => Throw InvalidCharacterError
       end.

(** ** Standard base64 encoding (RFC 4648, with padding)

    Not part of the source: the encoding [decode] is meant to undo. *)

Definition base64_char (v : Z) : Z :=
  if v <? 26 then v + 65
  else if v <? 52 then v + 71
  else if v <? 62 then v - 4
  else if v =? 62 then 43
  else 47.

(** The bytes as a string of bits, cut in groups of six; an incomplete last
    group is filled with zero bits. *)
Fixpoint sextets (b : list Z) : list Z :=
  match b with
  | x :: y :: z :: rest =>
      x / 4 :: (x mod 4) * 16 + y / 16 :: (y mod 16) * 4 + z / 64 :: z mod 64
      :: sextets rest
  | [x; y] => [x / 4; (x mod 4) * 16 + y / 16; (y mod 16) * 4]
  | [x] => [x / 4; (x mod 4) * 16]
  | [] => []
  end.

(** The [=] signs that bring the text to a multiple of four characters. *)
Definition padding (b : list Z) : jsstring :=
  replicate ((3 - List.length b mod 3) mod 3)%nat 61.

Definition base64_encode (b : list Z) : jsstring :=
  map base64_char (sextets b) ++ padding b.

Definition is_byte (v : Z) : Prop := 0 <= v < 256.
Definition is_sextet (v : Z) : Prop := 0 <= v < 64.

(** ** [Uint8Array] and [decode] (src/index.tsx, 54-62) *)

(** A [Uint8Array] is a window on an [ArrayBuffer]: the bytes of the
    buffer, where the window starts and how many bytes it spans. *)
Record Uint8Array := {
  buffer : list Z;
  byteOffset : Z;
  length : Z
}.

(** [new Uint8Array(len)]: a fresh zero-filled buffer, seen whole. *)
Definition new_Uint8Array (len : Z) : Uint8Array :=
  {| buffer := replicate (Z.to_nat len) 0; byteOffset := 0; length := len |}.

(** The array that holds exactly the bytes [bs], seen whole. *)
Definition Uint8Array_of (bs : list Z) : Uint8Array :=
  {| buffer := bs; byteOffset := 0; length := Z.of_nat (List.length bs) |}.

(** [ToUint8]: [NaN] (here [None]) becomes 0, an integer wraps modulo 256. *)
Definition ToUint8 (v : option Z) : Z :=
  match v with
  | Some n => n mod 256
  | None => 0
  end.

(** [a[i] = v]: ignored outside the window. *)
Definition Uint8Array_set (a : Uint8Array) (i : Z) (v : option Z) : Uint8Array :=
  if (0 <=? i) && (i <? length a) then
    {| buffer := <[Z.to_nat (byteOffset a + i) := ToUint8 v]> (buffer a);
       byteOffset := byteOffset a;
       length := length a |}
  else a.

(** [a[i]] *)
Definition Uint8Array_get (a : Uint8Array) (i : Z) : option Z :=
  if (0 <=? i) && (i <? length a) then buffer a !! Z.to_nat (byteOffset a + i)
  else None.

(** [s.charCodeAt(i)]: the code unit, or [NaN] ([None]) out of range. *)
Definition charCodeAt (s : jsstring) (i : Z) : option Z :=
  if 0 <=? i then s !! Z.to_nat i else None.

(** The loop of [decode], over the indices [idx]. *)
Definition fill (binaryString : jsstring) (bytes : Uint8Array) (idx : list Z)
  : Uint8Array :=
  foldl (fun bytes i => Uint8Array_set bytes i (charCodeAt binaryString i))
        bytes idx.

Definition decode (base64 : jsstring) : Exc Uint8Array :=
  binaryString ← atob base64;
  let len := Z.of_nat (List.length binaryString) in
  let bytes := new_Uint8Array len in
  Ok (fill binaryString bytes (indices len)).

End Base64.

(* ================================================================== *)
(** * Audio: [decodeAudioData] (src/index.tsx, 64-80)                  *)
(* ================================================================== *)

Module Audio.
Import Base64.

(** ** [Int16Array] over a buffer *)

(** Two bytes, low one first, as a signed 16-bit integer. *)
Definition int16_le (lo hi : Z) : Z :=
  let u := lo + 256 * hi in
  if u <? 32768 then u else u - 65536.

Fixpoint int16s (bytes : list Z) : list Z :=
  match bytes with
  | lo :: hi :: rest => int16_le lo hi :: int16s rest
  | _ => []
  end.

(** [new Int16Array(buffer)]: the whole buffer as 16-bit elements;
    [RangeError] when its byte length is odd. *)
Definition new_Int16Array (buffer : list Z) : Exc (list Z) :=
  if Z.of_nat (List.length buffer) mod 2 =? 0 then Ok (int16s buffer)
  else Throw RangeError.

(** ** The Web Audio interface *)

(** A JavaScript number stored in a [Float32Array]. The values written here
    are 16-bit integers over 2^15, which a 32-bit float holds exactly, so
    the stored number is the rational itself. *)
Inductive Sample :=
  | Num (q : Q)
  | NaN.

(** [x / 32768.0] where [x] is an element read from a typed array:
    [undefined] (out of range) gives [NaN]. *)
Definition div_32768 (x : option Z) : Sample :=
  match x with
  | Some v => Num (inject_Z v / 32768)
  | None => NaN
  end.

(** What an implementation accepts in [createBuffer]. *)
Record AudioContext := {
  maxChannels : Z;
  minSampleRate : Z;
  maxSampleRate : Z
}.

Record AudioBuffer := {
  numberOfChannels : Z;
  frames : Z;                        (* [buffer.length] *)
  sampleRate : Z;
  channels : list (list Sample)
}.

(** Web IDL conversion of a number to [unsigned long]: truncate towards
    zero, then wrap modulo 2^32. *)
Definition truncate (x : Q) : Z :=
  if Qle_bool 0 x then Qfloor x else Qceiling x.

Definition to_unsigned_long (x : Q) : Z := truncate x mod 4294967296.

(** [ctx.createBuffer(numberOfChannels, length, sampleRate)]: zero-filled
    channels; [NotSupportedError] when an argument is zero, negative or
    outside what the implementation accepts. *)
Definition createBuffer (ctx : AudioContext)
    (numberOfChannels : Z) (length : Q) (sampleRate : Z) : Exc AudioBuffer :=
  let len := to_unsigned_long length in
  if (numberOfChannels <=? 0) || (maxChannels ctx <? numberOfChannels)
     || (len =? 0)
     || (sampleRate <? minSampleRate ctx) || (maxSampleRate ctx <? sampleRate)
  then Throw NotSupportedError
  else Ok {| numberOfChannels := numberOfChannels;
             frames := len;
             sampleRate := sampleRate;
             channels := replicate (Z.to_nat numberOfChannels)
                                   (replicate (Z.to_nat len) (Num 0)) |}.

(** [buffer.getChannelData(channel)]: [IndexSizeError] out of range. The
    array returned is the buffer's own storage. *)
Definition getChannelData (b : AudioBuffer) (channel : Z) : Exc (list Sample) :=
  if (0 <=? channel) && (channel <? numberOfChannels b) then
    match channels b !! Z.to_nat channel with
    | Some data => Ok data
    | None => Throw IndexSizeError
    end
  else Throw IndexSizeError.

(** [channelData[i] = v] on the storage of channel [channel]: a write past
    the end of a typed array is ignored. *)
Definition set_sample (b : AudioBuffer) (channel i : Z) (v : Sample) : AudioBuffer :=
  {| numberOfChannels := numberOfChannels b;
     frames := frames b;
     sampleRate := sampleRate b;
     channels := alter (fun data => <[Z.to_nat i := v]> data)
                       (Z.to_nat channel) (channels b) |}.

(** ** The decoder *)

Definition decodeAudioData (data : Uint8Array) (ctx : AudioContext)
    (sampleRate numChannels : Z) : Exc AudioBuffer :=
  dataInt16 ← new_Int16Array (Base64.buffer data);
  let frameCount : Q :=
    (inject_Z (Z.of_nat (List.length dataInt16)) / inject_Z numChannels)%Q in
  buffer ← createBuffer ctx numChannels frameCount sampleRate;
  forM (fun channel buffer =>
          _ ← getChannelData buffer channel;
          Ok (foldl (fun buffer i =>
                       set_sample buffer channel i
                         (div_32768 (dataInt16 !! Z.to_nat (i * numChannels + channel))))
                    buffer (indices_below frameCount)))
       (indices numChannels) buffer.

(** The sample of channel [c] at frame [i], by position and by number. *)
Definition sample_nat (b : AudioBuffer) (c i : nat) : option Sample :=
  data ← channels b !! c; data !! i.

Definition sample_at (b : AudioBuffer) (c i : Z) : option Sample :=
  sample_nat b (Z.to_nat c) (Z.to_nat i).

(** The payload read as 16-bit samples: [pcm[k]]. *)
Definition pcm_sample (payload : list Z) (k : Z) : option Z :=
  int16s payload !! Z.to_nat k.

(** The context the application creates ([sampleRate: 24000]), with the
    limits the Web Audio specification asks every implementation to
    accept at least. *)
Definition audioContext : AudioContext :=
  {| maxChannels := 32; minSampleRate := 8000; maxSampleRate := 96000 |}.

(** A buffer of [C] channels and [F] frames whose first [k] channels hold
    the samples [g c i] and whose other channels are still silent. *)
Definition written (g : Z -> Z -> Sample) (C F rate : Z) (k : nat)
    (b : AudioBuffer) : Prop :=
  numberOfChannels b = C /\ frames b = F /\ sampleRate b = rate /\
  forall c i : nat,
    sample_nat b c i =
    if decide ((c < Z.to_nat C)%nat /\ (i < Z.to_nat F)%nat)
    then Some (if decide (c < k)%nat then g (Z.of_nat c) (Z.of_nat i) else Num 0)
    else None.

End Audio.

(* ================================================================== *)
(** * Lookup: [performLookup] (src/index.tsx, 161-230)                 *)
(* ================================================================== *)

Module Lookup.

(** ** The language catalogue (the flag glyphs play no part here) *)

Record Language := { code : jsstring; name : jsstring }.

Definition LANGUAGES : list Language :=
  [ {| code := js "en"; name := js "English" |};
    {| code := js "zh"; name := js "Chinese" |};
    {| code := js "es"; name := js "Spanish" |};
    {| code := js "fr"; name := js "French" |};
    {| code := js "ja"; name := js "Japanese" |};
    {| code := js "ko"; name := js "Korean" |};
    {| code := js "de"; name := js "German" |};
    {| code := js "pt"; name := js "Portuguese" |};
    {| code := js "it"; name := js "Italian" |};
    {| code := js "ru"; name := js "Russian" |} ].

(** [LANGUAGES.find(l => l.code === lang)?.name] *)
Definition label (lang : jsstring) : option jsstring :=
  name <$> List.find (fun l => bool_decide (code l = lang)) LANGUAGES.

(** ** The generative service *)

(** The two prompts are template strings; a prompt is kept as the template
    it instantiates and the values interpolated in it. *)
Inductive Prompt :=
  | Explain (lookupText : jsstring) (targetLabel nativeLabel : option jsstring)
  | Illustrate (lookupText : jsstring) (definition : JSValue)
  | Speak (text voice : jsstring)
  | Compose (targetLabel : option jsstring) (words : jsstring)
            (nativeLabel : option jsstring).

Record Request := {
  model : jsstring;
  contents : Prompt;
  responseMimeType : option jsstring
}.

Record Blob := { data : option jsstring }.
Record Part := { inlineData : option Blob }.
Record Content := { parts : option (list Part) }.
Record Candidate := { content : option Content }.
Record GenerateContentResponse := {
  text : option jsstring;
  candidates : option (list Candidate)
}.

(** [ai.models.generateContent], awaited: a response, or a rejection that
    the [await] rethrows. *)
Definition Service := Request -> Exc GenerateContentResponse.

(** ** Effects: what the body of the [try] does besides returning *)

(** A computation that logs the requests it sends to the service and
    returns or throws. *)
Definition Eff (A : Type) := list Request -> list Request * Exc A.

#[global] Instance Eff_ret : MRet Eff := fun A a log => (log, Ok a).
#[global] Instance Eff_bind : MBind Eff := fun A B f m log =>
  match m log with
  | (log', Ok a) => f a log'
  | (log', Throw e) => (log', Throw e)
  end.

Definition lift {A} (m : Exc A) : Eff A := fun log => (log, m).

Definition generateContent (ai : Service) (req : Request)
  : Eff GenerateContentResponse :=
  fun log => (log ++ [req], ai req).

(** ** The application state [performLookup] reads and writes *)

Inductive Role := user | model_role.
Record ChatMessage := { role : Role; message : jsstring }.

Record AppState := {
  nativeLang : jsstring;
  targetLang : jsstring;
  loading : bool;
  result : option JSObject;
  chatHistory : list ChatMessage
}.

(** What a run leaves outside the state: the requests sent and the errors
    written to the console. *)
Record Trace := {
  calls : list Request;
  console : list JSError
}.

Definition text_model : jsstring := js "gemini-3-flash-preview".
Definition image_model : jsstring := js "gemini-2.5-flash-image".

(** [imageResponse.candidates[0].content.parts], as the [for ... of]
    needs it: every missing link is a [TypeError]. *)
Definition image_parts (r : GenerateContentResponse) : Exc (list Part) :=
  match candidates r with
  | Some (c :: _) =>
      match content c with
      | Some ct =>
          match parts ct with
          | Some ps => Ok ps
          | None => Throw TypeError
          end
      | None => Throw TypeError
      end
  | _ => Throw TypeError
  end.

(** A value interpolated in a template string. *)
Definition interpolate (x : option jsstring) : jsstring :=
  match x with
  | Some s => s
  | None => js "undefined"
  end.

(** The loop over the parts: every part with inline data overwrites
    [imgUrl]. *)
Definition data_url (blob : Blob) : jsstring :=
  js "data:image/png;base64," ++ interpolate (data blob).

Definition image_url_from (imgUrl : jsstring) (ps : list Part) : jsstring :=
  foldl (fun imgUrl part =>
           match inlineData part with
           | Some blob => data_url blob
           | None => imgUrl
           end) imgUrl ps.

Definition image_url (ps : list Part) : jsstring := image_url_from [] ps.

(** The object literal [{...parsed, id, imageUrl, targetLang, nativeLang}]. *)
Definition new_entry (parsed : JSValue) (now : Z) (imgUrl : jsstring)
    (st : AppState) : JSObject :=
  <[js "nativeLang" := JString (nativeLang st)]>
    (<[js "targetLang" := JString (targetLang st)]>
       (<[js "imageUrl" := JString imgUrl]>
          (<[js "id" := JString (Number_toString now)]> (spread parsed)))).

(** The two requests. *)
Definition text_request (lookupText : jsstring)
    (targetLabel nativeLabel : option jsstring) : Request :=
  {| model := text_model;
     contents := Explain lookupText targetLabel nativeLabel;
     responseMimeType := Some (js "application/json") |}.

Definition image_request (lookupText : jsstring) (definition : JSValue) : Request :=
  {| model := image_model;
     contents := Illustrate lookupText definition;
     responseMimeType := None |}.

(** The body of the [try], up to the entry handed to [setResult]. [now] is
    what [Date.now()] returns. *)
Definition lookup_body (ai : Service) (now : Z) (st : AppState)
    (lookupText : jsstring) : Eff JSObject :=
  let nativeLabel := label (nativeLang st) in
  let targetLabel := label (targetLang st) in
  textResponse ← generateContent ai (text_request lookupText targetLabel nativeLabel);
  parsed ← lift (JSON_parse (or_else (text textResponse) (js "{}")));
  definition ← lift (Get parsed (js "definition"));
  definition ← lift (template_value definition);
  imageResponse ← generateContent ai (image_request lookupText definition);
  ps ← lift (image_parts imageResponse);
  mret (new_entry parsed now (image_url ps) st).

(** The state once the lookup is over: [setLoading(true)],
    [setResult(null)] and [setChatHistory([])] on entry, [setResult] when
    the body returned, [setLoading(false)] in the [finally]. *)
Definition finished (st : AppState) (r : option JSObject) : AppState :=
  {| nativeLang := nativeLang st; targetLang := targetLang st;
     loading := false; result := r; chatHistory := [] |}.

Definition performLookup (ai : Service) (now : Z) (lookupText : jsstring)
    (st : AppState) : AppState * Trace :=
  let '(log, outcome) := lookup_body ai now st lookupText [] in
  match outcome with
  | Ok newEntry => (finished st (Some newEntry), {| calls := log; console := [] |})
  | Throw e => (finished st None, {| calls := log; console := [e] |})
  end.

(** The keys the object literal sets after the spread. *)
Definition stamped_keys : list jsstring :=
  [js "id"; js "imageUrl"; js "targetLang"; js "nativeLang"].

(** The requests of a run that went to the image model. *)
Definition image_calls (t : Trace) : list Request :=
  List.filter (fun r => bool_decide (model r = image_model)) (calls t).

(** ** The shape the interface [WordEntry] asks of an object *)

Definition is_string (v : JSValue) : bool :=
  match v with JString _ => true | _ => false end.

Definition is_example (v : JSValue) : bool :=
  match v with
  | JObject ms =>
      is_string (default JUndefined (lookup_member (js "target") ms))
      && is_string (default JUndefined (lookup_member (js "native") ms))
  | _ => false
  end.

Definition is_examples (v : JSValue) : bool :=
  match v with
  | JArray es => forallb is_example es
  | _ => false
  end.

(** [id], [word], [definition], [usage], [targetLang] and [nativeLang] are
    strings, [examples] is an array of [{target, native}] and [imageUrl],
    if present, is a string. *)
Definition is_WordEntry (o : JSObject) : bool :=
  is_string (prop o (js "id"))
  && is_string (prop o (js "word"))
  && is_string (prop o (js "definition"))
  && is_examples (prop o (js "examples"))
  && is_string (prop o (js "usage"))
  && match o !! js "imageUrl" with
     | Some v => is_string v
     | None => true
     end
  && is_string (prop o (js "targetLang"))
  && is_string (prop o (js "nativeLang")).

(** ** Services and a state for the examples *)

(** A response of the image model with a list of parts. *)
Definition image_response (ps : list Part) : GenerateContentResponse :=
  {| text := None;
     candidates := Some [{| content := Some {| parts := Some ps |} |}] |}.

(** A response of the text model. *)
Definition text_response (t : jsstring) : GenerateContentResponse :=
  {| text := Some t; candidates := None |}.

(** The service that answers the text model with [t] and the image model
    with [image]. *)
Definition service (t : jsstring) (image : Exc GenerateContentResponse) : Service :=
  fun req =>
    if bool_decide (model req = image_model) then image
    else Ok (text_response t).

(** English speaker learning Spanish, nothing looked up yet. *)
Definition english_spanish : AppState :=
  {| nativeLang := js "en"; targetLang := js "es";
     loading := false; result := None; chatHistory := [] |}.

Definition hello_json : jsstring :=
  jsq "{'word':'hello','definition':'a greeting','examples':[{'target':'Hello!','native':'Hola!'}],'usage':'casual greeting'}".

Definition hola_json : jsstring :=
  jsq "{'word':'hola','definition':'a greeting','examples':[],'usage':'casual'}".

(** A text whose [definition] is an object with an own [toString] that is
    no function: it has no string. *)
Definition opaque_json : jsstring :=
  jsq "{'word':'hello','definition':{'toString':1},'examples':[],'usage':'casual'}".

End Lookup.

(* ================================================================== *)
(** * Hydration: the start-up effect (src/index.tsx, 105-115)          *)
(* ================================================================== *)

Module Hydration.

(** [localStorage]: string keys, string values. *)
Abbreviation Storage := (gmap jsstring jsstring).

Definition getItem (ls : Storage) (key : jsstring) : option jsstring := ls !! key.

(** The state the effect sets. What [JSON.parse] returns is stored as it
    is, whatever its shape. *)
Record AppState := {
  notebook : JSValue;
  nativeLang : JSValue;
  targetLang : JSValue;
  isSetup : bool
}.

(** The [useState] initial values. *)
Definition initial : AppState :=
  {| notebook := JArray []; nativeLang := JString [];
     targetLang := JString []; isSetup := false |}.

(** [if (saved) setNotebook(JSON.parse(saved))]: [null] and the empty
    string are falsy. *)
Definition hydrate_notebook (ls : Storage) (st : AppState) : Exc AppState :=
  match getItem ls (js "ai_dict_notebook") with
  | Some (c :: s) =>
      v ← JSON_parse (c :: s);
      Ok {| notebook := v; nativeLang := nativeLang st;
            targetLang := targetLang st; isSetup := isSetup st |}
  | _ => Ok st
  end.

(** The second half of the effect: the set-up profile. *)
Definition hydrate_setup (ls : Storage) (st : AppState) : Exc AppState :=
  match getItem ls (js "ai_dict_setup") with
  | Some (c :: s) =>
      v ← JSON_parse (c :: s);
      native ← Get v (js "native");
      target ← Get v (js "target");
      Ok {| notebook := notebook st; nativeLang := native;
            targetLang := target; isSetup := true |}
  | _ => Ok st
  end.

(** The whole effect; a [Throw] is an exception that escapes it. *)
Definition hydrate (ls : Storage) (st : AppState) : Exc AppState :=
  st' ← hydrate_notebook ls st; hydrate_setup ls st'.

(** A notebook blob as the persist effect writes it, with one entry. *)
Definition saved_notebook : jsstring :=
  jsq "[{'word':'hola','definition':'a greeting','examples':[{'target':'Hola!','native':'Hello!'}],'usage':'casual','id':'1730000000000','imageUrl':'','targetLang':'es','nativeLang':'en'}]".

End Hydration.

(* ================================================================== *)
(** * Notebook and flashcards (src/index.tsx, 401-413, 508-511, 523-588) *)
(* ================================================================== *)

Module Notebook.

Record Example := { target : jsstring; native : jsstring }.

(** [interface WordEntry] *)
Record WordEntry := {
  id : jsstring;
  word : jsstring;
  definition : jsstring;
  examples : list Example;
  usage : jsstring;
  imageUrl : option jsstring;
  targetLang : jsstring;
  nativeLang : jsstring
}.

#[global] Instance Example_eq_dec : EqDecision Example.
Proof. solve_decision. Defined.
#[global] Instance WordEntry_eq_dec : EqDecision WordEntry.
Proof. solve_decision. Defined.

(** ** The two updates of the notebook *)

(** The save button of the result card (401-408): unsave when some entry
    has the word of the result, else append the result. *)
Definition toggle (result : WordEntry) (notebook : list WordEntry) : list WordEntry :=
  if existsb (fun n => bool_decide (word n = word result)) notebook
  then filter (fun n => word n ≠ word result) notebook
  else notebook ++ [result].

(** The remove button of a notebook row (511). *)
Definition remove (item : WordEntry) (notebook : list WordEntry) : list WordEntry :=
  filter (fun n => id n ≠ id item) notebook.

(** ** The interface as a machine *)

Inductive Tab := search | notebook_tab | study.

Record AppState := {
  notebook : list WordEntry;
  result : option WordEntry;
  activeTab : Tab;
  currentCardIndex : Z;
  isFlipped : bool
}.

(** What the user, or a finished lookup, can do to this state. [ClickOpen i]
    and [ClickRemove i] are the two buttons of the [i]-th notebook row. *)
Inductive Event :=
  | ClickTab (t : Tab)
  | LookupResult (r : option WordEntry)
  | ClickSave
  | ClickOpen (i : nat)
  | ClickRemove (i : nat)
  | ClickCard
  | ClickPrevious
  | ClickNext.

Definition size (st : AppState) : Z := Z.of_nat (List.length (notebook st)).

(** What the flashcard reads (543-558): the card under the index and the
    first example of that card. Reading a field of a missing card, or of a
    missing first example, is a [TypeError] in the render. *)
Definition current_card (st : AppState) : Exc (WordEntry * Example) :=
  if 0 <=? currentCardIndex st then
    match notebook st !! Z.to_nat (currentCardIndex st) with
    | Some card =>
        match examples card with
        | example :: _ => Ok (card, example)
        | [] => Throw TypeError
        end
    | None => Throw TypeError
    end
  else Throw TypeError.

(** The render of a state. The search and notebook tabs read nothing that
    can be missing; the study tab, on a notebook that is not empty, reads
    the current card. *)
Definition render (st : AppState) : Exc unit :=
  match activeTab st, notebook st with
  | study, _ :: _ => _ ← current_card st; Ok ()
  | _, _ => Ok ()
  end.

(** A render that throws unmounts the application: no control is left. *)
Definition mounted (st : AppState) : bool :=
  match render st with
  | Ok _ => true
  | Throw _ => false
  end.

(** The flashcard and its buttons are on screen: the study tab is active,
    the notebook is not empty and the card rendered. *)
Definition study_shown (st : AppState) : bool :=
  match activeTab st, notebook st, current_card st with
  | study, _ :: _, Ok _ => true
  | _, _, _ => false
  end.

Definition previous_disabled (st : AppState) : bool := currentCardIndex st =? 0.
Definition next_disabled (st : AppState) : bool := currentCardIndex st =? size st - 1.

Definition set_notebook (nb : list WordEntry) (st : AppState) : AppState :=
  {| notebook := nb; result := result st; activeTab := activeTab st;
     currentCardIndex := currentCardIndex st; isFlipped := isFlipped st |}.

Definition set_card (i : Z) (flipped : bool) (st : AppState) : AppState :=
  {| notebook := notebook st; result := result st; activeTab := activeTab st;
     currentCardIndex := i; isFlipped := flipped |}.

(** One event on the mounted application. A control that is not on screen,
    or is disabled, does nothing. *)
Definition click (e : Event) (st : AppState) : AppState :=
  match e with
  | ClickTab t =>
      {| notebook := notebook st; result := result st; activeTab := t;
         currentCardIndex := currentCardIndex st; isFlipped := isFlipped st |}
  | LookupResult r =>
      {| notebook := notebook st; result := r; activeTab := activeTab st;
         currentCardIndex := currentCardIndex st; isFlipped := isFlipped st |}
  | ClickSave =>
      match activeTab st, result st with
      | search, Some r => set_notebook (toggle r (notebook st)) st
      | _, _ => st
      end
  | ClickOpen i =>
      match activeTab st, notebook st !! i with
      | notebook_tab, Some item =>
          {| notebook := notebook st; result := Some item; activeTab := search;
             currentCardIndex := currentCardIndex st; isFlipped := isFlipped st |}
      | _, _ => st
      end
  | ClickRemove i =>
      match activeTab st, notebook st !! i with
      | notebook_tab, Some item => set_notebook (remove item (notebook st)) st
      | _, _ => st
      end
  | ClickCard =>
      if study_shown st then set_card (currentCardIndex st) (negb (isFlipped st)) st
      else st
  | ClickPrevious =>
      if study_shown st && negb (previous_disabled st)
      then set_card (currentCardIndex st - 1) false st
      else st
  | ClickNext =>
      if study_shown st && negb (next_disabled st)
      then set_card (currentCardIndex st + 1) false st
      else st
  end.

(** One event: on a state whose render threw there is nothing to click, and
    nothing left to update. *)
Definition handle (e : Event) (st : AppState) : AppState :=
  if mounted st then click e st else st.

(** A sequence of events, first to last. *)
Definition run (es : list Event) (st : AppState) : AppState :=
  foldl (fun st e => handle e st) st es.

(** The session: the index and the face shown. *)
Definition session (st : AppState) : Z * bool :=
  (currentCardIndex st, isFlipped st).

(** The entry has a first example for the flashcard to show. *)
Definition has_example (n : WordEntry) : Prop := examples n <> [].

(** The index names a card of the notebook. *)
Definition in_bounds (st : AppState) : Prop :=
  0 <= currentCardIndex st < size st.

(** The states the navigator walks through: the study tab, an index in
    bounds, and an example on every card. *)
Definition walking (st : AppState) : Prop :=
  activeTab st = study /\ in_bounds st /\ Forall has_example (notebook st).

(** The words of a notebook, in order. *)
Definition words (nb : list WordEntry) : list jsstring := word <$> nb.

(** ** Entries and states for the examples *)

(** An entry with the given id and word, one example and no image. *)
Definition entry (i w : string) : WordEntry :=
  {| id := js i; word := js w; definition := js "a word";
     examples := [{| target := js w; native := js "a word" |}];
     usage := js "common"; imageUrl := None;
     targetLang := js "es"; nativeLang := js "en" |}.

(** The same without any example, as a response with [examples: []]
    gives. *)
Definition bare_entry (i w : string) : WordEntry :=
  {| id := js i; word := js w; definition := js "a word"; examples := [];
     usage := js "common"; imageUrl := None;
     targetLang := js "es"; nativeLang := js "en" |}.

(** The study tab on the first card of [nb], face up. *)
Definition studying (nb : list WordEntry) : AppState :=
  {| notebook := nb; result := None; activeTab := study;
     currentCardIndex := 0; isFlipped := false |}.

End Notebook.

(* ================================================================== *)
(** * Speech: [initAudio] and [playTTS] (src/index.tsx, 121-159)       *)
(* ================================================================== *)

Module Speech.
Import Base64 Audio Lookup.

Definition tts_model : jsstring := js "gemini-2.5-flash-preview-tts".

Definition speech_request (text voice : jsstring) : Request :=
  {| model := tts_model; contents := Speak text voice; responseMimeType := None |}.

(** [response.candidates?.[0]?.content?.parts?.[0]?.inlineData?.data]:
    [undefined] as soon as a link is missing. *)
Definition first_inline_data (r : GenerateContentResponse) : option jsstring :=
  cs ← candidates r; c ← head cs; ct ← content c; ps ← parts ct;
  p ← head ps; b ← inlineData p; data b.

(** The audio side of the application: the context kept in
    [audioContextRef] and the buffers handed to a source and started, in
    order. *)
Record Player := {
  audioContextRef : option AudioContext;
  started : list AudioBuffer
}.

(** [browser] is the context that [new AudioContext({sampleRate: 24000})]
    gives. Creating the context, and creating, connecting and starting a
    source, are taken not to throw. *)
Definition initAudio (browser : AudioContext) (p : Player) : Player :=
  match audioContextRef p with
  | Some _ => p
  | None => {| audioContextRef := Some browser; started := started p |}
  end.

(** [decodeAudioData(decode(base64Audio), ctx, 24000, 1)] *)
Definition decode_speech (base64Audio : jsstring) (ctx : AudioContext)
  : Exc AudioBuffer :=
  bytes ← decode base64Audio; decodeAudioData bytes ctx 24000 1.

Definition playTTS (browser : AudioContext) (ai : Service)
    (text voice : jsstring) (p : Player) : Player * Trace :=
  let p := initAudio browser p in
  let req := speech_request text voice in
  match ai req with
  | Throw e => (p, {| calls := [req]; console := [e] |})
  | Ok response =>
      match first_inline_data response, audioContextRef p with
      | Some (c :: s), Some ctx =>
          match decode_speech (c :: s) ctx with
          | Ok audioBuffer =>
              ({| audioContextRef := audioContextRef p;
                  started := started p ++ [audioBuffer] |},
               {| calls := [req]; console := [] |})
          | Throw e => (p, {| calls := [req]; console := [e] |})
          end
      | _, _ => (p, {| calls := [req]; console := [] |})
      end
  end.

(** The default voice of the signature. *)
Definition Kore : jsstring := js "Kore".

(** A response of the speech model with one inline part. *)
Definition speech_response (base64Audio : jsstring) : GenerateContentResponse :=
  image_response [{| inlineData := Some {| data := Some base64Audio |} |}].

Definition silent : Player := {| audioContextRef := None; started := [] |}.

End Speech.

(* ================================================================== *)
(** * Tutor: [sendMessage] (src/index.tsx, 232-250)                    *)
(* ================================================================== *)

Module Tutor.

(** ** [String.prototype.trim] *)

(** White space and line terminators of ECMAScript. *)
Definition is_js_whitespace (c : Z) : bool :=
  ((9 <=? c) && (c <=? 13)) || (c =? 32) || (c =? 160) || (c =? 5760)
  || ((8192 <=? c) && (c <=? 8202)) || (c =? 8232) || (c =? 8233)
  || (c =? 8239) || (c =? 8287) || (c =? 12288) || (c =? 65279).

Fixpoint trim_start (s : jsstring) : jsstring :=
  match s with
  | c :: s' => if is_js_whitespace c then trim_start s' else s
  | [] => []
  end.

Definition trim (s : jsstring) : jsstring :=
  rev (trim_start (rev (trim_start s))).

(** ** The chat service *)

(** The system instruction is a template string; it is kept as the values
    interpolated in it: [result.word], [targetLang] and [nativeLang]. *)
Inductive SystemInstruction :=
  | Tutoring (word : JSValue) (targetLang nativeLang : jsstring).

(** [ai.chats.create({..., systemInstruction})] followed by
    [chat.sendMessage({ message })], awaited: [resp.text], or a
    rejection. *)
Definition ChatService := SystemInstruction -> jsstring -> Exc (option jsstring).

Record AppState := {
  chatInput : jsstring;
  result : option JSObject;
  chatHistory : list Lookup.ChatMessage;
  targetLang : jsstring;
  nativeLang : jsstring
}.

Definition said (r : Lookup.Role) (t : jsstring) : Lookup.ChatMessage :=
  {| Lookup.role := r; Lookup.message := t |}.

Definition not_understood : jsstring := js "Sorry, I couldn't understand that.".
Definition connection_error : jsstring := js "Error connecting to AI.".

(** The state after the call, and the messages sent to the service. *)
Definition sendMessage (chat : ChatService) (st : AppState)
  : AppState * list (SystemInstruction * jsstring) :=
  match trim (chatInput st), result st with
  | _ :: _, Some entry =>
      let userMsg := chatInput st in
      let instruction :=
        Tutoring (prop entry (js "word")) (targetLang st) (nativeLang st) in
      let reply :=
        match chat instruction userMsg with
        | Ok text => or_else text not_understood
        | Throw _ => connection_error
        end in
      ({| chatInput := [];
          result := result st;
          chatHistory := (chatHistory st ++ [said Lookup.user userMsg])
                         ++ [said Lookup.model_role reply];
          targetLang := targetLang st;
          nativeLang := nativeLang st |},
       [(instruction, userMsg)])
  | _, _ => (st, [])
  end.

End Tutor.

(* ================================================================== *)
(** * Story: [generateStory] (src/index.tsx, 252-267)                  *)
(* ================================================================== *)

Module Story.
Import Lookup.

Record AppState := {
  notebook : list Notebook.WordEntry;
  targetLang : jsstring;
  nativeLang : jsstring;
  loading : bool;
  story : option jsstring
}.

(** [strings.join(sep)] *)
Fixpoint join (sep : jsstring) (strings : list jsstring) : jsstring :=
  match strings with
  | [] => []
  | [s] => s
  | s :: rest => s ++ sep ++ join sep rest
  end.

(** [notebook.map(n => n.word).join(', ')] *)
Definition words (nb : list Notebook.WordEntry) : jsstring :=
  join (js ", ") (map Notebook.word nb).

Definition story_request (st : AppState) : Request :=
  {| model := text_model;
     contents := Compose (label (targetLang st)) (words (notebook st))
                         (label (nativeLang st));
     responseMimeType := None |}.

Definition no_story : jsstring := js "Could not generate story.".

Definition set_story (st : AppState) (s : option jsstring) : AppState :=
  {| notebook := notebook st; targetLang := targetLang st;
     nativeLang := nativeLang st; loading := false; story := s |}.

Definition generateStory (ai : Service) (st : AppState) : AppState * Trace :=
  if Z.of_nat (List.length (notebook st)) <? 2 then
    (st, {| calls := []; console := [] |})
  else
    let req := story_request st in
    match ai req with
    | Ok resp =>
        (set_story st (Some (or_else (text resp) no_story)),
         {| calls := [req]; console := [] |})
    | Throw e =>
        (set_story st (story st), {| calls := [req]; console := [e] |})
    end.

(** A state for the examples: [nb] saved, English to Spanish. *)
Definition library (nb : list Notebook.WordEntry) : AppState :=
  {| notebook := nb; targetLang := js "es"; nativeLang := js "en";
     loading := false; story := None |}.

End Story.

(* ================================================================== *)
(** * Set-up: [handleSetup] (src/index.tsx, 127-132)                   *)
(* ================================================================== *)

Module Setup.
Import Hydration.

(** ** [JSON.stringify] of a string *)

Definition hex_digit (d : Z) : Z := if d <? 10 then d + 48 else d + 87.

(** The six characters of a [u]-escape, with lowercase digits. *)
Definition unicode_escape (c : Z) : jsstring :=
  [92; 117; hex_digit (c / 4096); hex_digit ((c / 256) mod 16);
   hex_digit ((c / 16) mod 16); hex_digit (c mod 16)].

Definition is_leading_surrogate (c : Z) : bool := (55296 <=? c) && (c <=? 56319).
Definition is_trailing_surrogate (c : Z) : bool := (56320 <=? c) && (c <=? 57343).

(** One code unit that is not the first half of a pair. *)
Definition quote_unit (c : Z) : jsstring :=
  if c =? 8 then [92; 98]
  else if c =? 9 then [92; 116]
  else if c =? 10 then [92; 110]
  else if c =? 12 then [92; 102]
  else if c =? 13 then [92; 114]
  else if c =? 34 then [92; 34]
  else if c =? 92 then [92; 92]
  else if (c <? 32) || is_leading_surrogate c || is_trailing_surrogate c
  then unicode_escape c
  else [c].

(** [QuoteJSONString], without the enclosing quotation marks: the string is
    read by code points, so a surrogate pair goes out as it is and a lone
    surrogate is escaped. *)
Fixpoint quote_units (s : jsstring) : jsstring :=
  match s with
  | [] => []
  | c :: rest =>
      if is_leading_surrogate c then
        match rest with
        | d :: rest' =>
            if is_trailing_surrogate d then c :: d :: quote_units rest'
            else unicode_escape c ++ quote_units rest
        | [] => unicode_escape c
        end
      else quote_unit c ++ quote_units rest
  end.

Definition JSON_stringify_string (s : jsstring) : jsstring :=
  34 :: quote_units s ++ [34].

(** [JSON.stringify({ native: nativeLang, target: targetLang })] for two
    strings. *)
Definition stringify_profile (nativeLang targetLang : jsstring) : jsstring :=
  jsq "{'native':" ++ JSON_stringify_string nativeLang
  ++ jsq ",'target':" ++ JSON_stringify_string targetLang ++ js "}".

(** A string of UTF-16 code units. *)
Definition is_code_unit (c : Z) : Prop := 0 <= c < 65536.

(** ** The handler *)

(** The storage and [isSetup] after the click; the two languages are the
    strings in the state. *)
Definition handleSetup (nativeLang targetLang : jsstring)
    (ls : Storage) (isSetup : bool) : Storage * bool :=
  match nativeLang, targetLang with
  | _ :: _, _ :: _ =>
      (<[js "ai_dict_setup" := stringify_profile nativeLang targetLang]> ls, true)
  | _, _ => (ls, isSetup)
  end.

End Setup.

(* ================================================================== *)
(** * Properties of [atob] and [decode]                                *)
(* ================================================================== *)

Module Base64Facts.
Import Base64.

(** Induction over a list three elements at a time, as the encoder reads
    its input. *)
Lemma list_ind3 {A} (P : list A -> Prop) :
  P [] -> (forall x, P [x]) -> (forall x y, P [x; y]) ->
  (forall x y z rest, P rest -> P (x :: y :: z :: rest)) ->
  forall l, P l.
Proof.
  intros H0 H1 H2 H3.
  fix IH 1. intros [|x [|y [|z rest]]];
    [apply H0 | apply H1 | apply H2 | apply H3, IH].
Qed.

Lemma indices_nat k : indices (Z.of_nat k) = map Z.of_nat (seq 0 k).
Proof. unfold indices. now rewrite Nat2Z.id. Qed.

Lemma indices_S k : indices (Z.of_nat (S k)) = indices (Z.of_nat k) ++ [Z.of_nat k].
Proof. rewrite !indices_nat, seq_S, map_app. reflexivity. Qed.

(** ** The alphabet *)

Lemma base64_value_char v : is_sextet v -> base64_value (base64_char v) = Some v.
Proof.
  unfold is_sextet. intros Hv. unfold base64_value, base64_char.
  repeat (case_match; try lia; try (f_equal; lia)).
Qed.

Lemma base64_char_not_whitespace v :
  is_sextet v -> is_ascii_whitespace (base64_char v) = false.
Proof.
  unfold is_sextet. intros Hv. unfold is_ascii_whitespace, base64_char.
  repeat case_match; lia.
Qed.

Lemma base64_char_not_equals v : is_sextet v -> base64_char v <> 61.
Proof.
  unfold is_sextet. intros Hv. unfold base64_char. repeat case_match; lia.
Qed.

(** ** Groups of six bits *)

Lemma sextets_range b : Forall is_byte b -> Forall is_sextet (sextets b).
Proof.
  induction b as [|x|x y|x y z rest IH] using list_ind3; intros Hb; simpl.
  - constructor.
  - inversion_clear Hb as [|? ? Hx _]. unfold is_byte, is_sextet in *.
    pose proof (Z.mod_pos_bound x 4).
    assert (0 <= x / 4 < 64)
      by (split; [apply Z.div_pos | apply Z.div_lt_upper_bound]; lia).
    repeat constructor; lia.
  - inversion_clear Hb as [|? ? Hx Hb']. inversion_clear Hb' as [|? ? Hy _].
    unfold is_byte, is_sextet in *.
    pose proof (Z.mod_pos_bound x 4). pose proof (Z.mod_pos_bound y 16).
    assert (0 <= x / 4 < 64)
      by (split; [apply Z.div_pos | apply Z.div_lt_upper_bound]; lia).
    assert (0 <= y / 16 < 16)
      by (split; [apply Z.div_pos | apply Z.div_lt_upper_bound]; lia).
    repeat constructor; lia.
  - inversion_clear Hb as [|? ? Hx Hb']. inversion_clear Hb' as [|? ? Hy Hb''].
    inversion_clear Hb'' as [|? ? Hz Hrest].
    unfold is_byte, is_sextet in *.
    pose proof (Z.mod_pos_bound x 4). pose proof (Z.mod_pos_bound y 16).
    pose proof (Z.mod_pos_bound z 64).
    assert (0 <= x / 4 < 64)
      by (split; [apply Z.div_pos | apply Z.div_lt_upper_bound]; lia).
    assert (0 <= y / 16 < 16)
      by (split; [apply Z.div_pos | apply Z.div_lt_upper_bound]; lia).
    assert (0 <= z / 64 < 4)
      by (split; [apply Z.div_pos | apply Z.div_lt_upper_bound]; lia).
    repeat (constructor; [lia|]). apply IH, Hrest.
Qed.

Lemma decode_sextets_sextets b : Forall is_byte b -> decode_sextets (sextets b) = b.
Proof.
  induction b as [|x|x y|x y z rest IH] using list_ind3; intros Hb.
  - reflexivity.
  - inversion_clear Hb as [|? ? Hx _]. unfold is_byte in *. simpl.
    f_equal.
    replace ((x / 4 * 64 + x mod 4 * 16) / 16) with x by (Z.div_mod_to_equations; lia).
    apply Z.mod_small; lia.
  - inversion_clear Hb as [|? ? Hx Hb']. inversion_clear Hb' as [|? ? Hy _].
    unfold is_byte in *. cbn [sextets decode_sextets].
    replace ((x / 4 * 4096 + (x mod 4 * 16 + y / 16) * 64 + y mod 16 * 4) / 4)
      with (x * 256 + y) by (Z.div_mod_to_equations; lia).
    f_equal; [|f_equal].
    + replace ((x * 256 + y) / 256) with x by (Z.div_mod_to_equations; lia).
      apply Z.mod_small; lia.
    + Z.div_mod_to_equations; lia.
  - inversion_clear Hb as [|? ? Hx Hb']. inversion_clear Hb' as [|? ? Hy Hb''].
    inversion_clear Hb'' as [|? ? Hz Hrest].
    unfold is_byte in *. cbn [sextets decode_sextets].
    replace (x / 4 * 262144 + (x mod 4 * 16 + y / 16) * 4096
             + (y mod 16 * 4 + z / 64) * 64 + z mod 64)
      with (x * 65536 + y * 256 + z) by (Z.div_mod_to_equations; lia).
    rewrite IH by assumption.
    f_equal; [|f_equal; [|f_equal]].
    + replace ((x * 65536 + y * 256 + z) / 65536) with x
        by (Z.div_mod_to_equations; lia).
      apply Z.mod_small; lia.
    + Z.div_mod_to_equations; lia.
    + Z.div_mod_to_equations; lia.
Qed.

Lemma decode_sextets_bytes l : Forall is_byte (decode_sextets l).
Proof.
  revert l. fix IH 1. intros [|a [|b [|c [|d rest]]]]; cbn [decode_sextets].
  - constructor.
  - constructor.
  - repeat constructor; apply Z.mod_pos_bound; lia.
  - repeat constructor; apply Z.mod_pos_bound; lia.
  - repeat (constructor; [split; apply Z.mod_pos_bound; lia|]). apply IH.
Qed.

(** ** The encoder's output, seen by [atob] *)

Lemma encode_length b :
  (List.length (base64_encode b) mod 4 = 0)%nat /\
  (List.length (sextets b) mod 4 <> 1)%nat.
Proof.
  unfold base64_encode, padding. rewrite length_app, length_map, length_replicate.
  induction b as [|x|x y|x y z rest IH] using list_ind3; cbn [sextets List.length].
  - split; [reflexivity | cbn; lia].
  - split; [reflexivity | cbn; lia].
  - split; [reflexivity | cbn; lia].
  - destruct IH as [IH1 IH2].
    replace (S (S (S (List.length rest))) mod 3)%nat with (List.length rest mod 3)%nat.
    2:{ change (S (S (S (List.length rest)))) with (3 + List.length rest)%nat.
        rewrite Nat.add_comm. rewrite <- (Nat.mul_1_l 3) at 2.
        now rewrite Nat.Div0.mod_add. }
    split.
    + replace (S (S (S (S (List.length (sextets rest)))))
                + (3 - List.length rest mod 3) mod 3)%nat
        with ((List.length (sextets rest) + (3 - List.length rest mod 3) mod 3)
              + 1 * 4)%nat by lia.
      now rewrite Nat.Div0.mod_add.
    + replace (S (S (S (S (List.length (sextets rest))))))
        with (List.length (sextets rest) + 1 * 4)%nat by lia.
      now rewrite Nat.Div0.mod_add.
Qed.

Lemma encode_no_whitespace b :
  Forall is_byte b ->
  List.filter (fun c => negb (is_ascii_whitespace c)) (base64_encode b)
  = base64_encode b.
Proof.
  intros Hb. apply forallb_filter_id. apply forallb_forall. intros c Hc.
  unfold base64_encode in Hc. apply in_app_or in Hc as [Hc|Hc].
  - apply in_map_iff in Hc as (v & <- & Hv).
    pose proof (sextets_range b Hb) as Hr. rewrite Forall_forall in Hr.
    rewrite base64_char_not_whitespace; [reflexivity|].
    apply Hr. now apply list_elem_of_In.
  - unfold padding in Hc. apply list_elem_of_In, elem_of_replicate in Hc as [-> _].
    reflexivity.
Qed.

Lemma strip_equals_snoc l : strip_equals (l ++ [61]) = l.
Proof.
  unfold strip_equals. rewrite last_snoc. cbn. apply removelast_last.
Qed.

Lemma strip_equals_chars vs :
  Forall is_sextet vs -> strip_equals (map base64_char vs) = map base64_char vs.
Proof.
  intros Hvs. unfold strip_equals.
  destruct (last (map base64_char vs)) as [c|] eqn:Hlast; [|reflexivity].
  change (map base64_char vs) with (base64_char <$> vs) in Hlast.
  rewrite fmap_last in Hlast.
  destruct (last vs) as [v|] eqn:Hv; [|discriminate]. injection Hlast as <-.
  apply last_Some_elem_of in Hv. rewrite Forall_forall in Hvs.
  pose proof (base64_char_not_equals v (Hvs v Hv)).
  destruct (Z.eqb_spec (base64_char v) 61); [contradiction | reflexivity].
Qed.

Lemma strip_padding_encode b :
  Forall is_byte b -> strip_padding (base64_encode b) = map base64_char (sextets b).
Proof.
  intros Hb. pose proof (sextets_range b Hb) as Hr.
  unfold base64_encode, padding, strip_padding.
  assert (Hk : ((3 - List.length b mod 3) mod 3 < 3)%nat)
    by (apply Nat.mod_upper_bound; lia).
  destruct ((3 - List.length b mod 3) mod 3)%nat as [|[|[|k]]]; [| | |lia];
    cbn [replicate].
  - rewrite app_nil_r. now rewrite !strip_equals_chars.
  - rewrite strip_equals_snoc. now rewrite strip_equals_chars.
  - change [61; 61] with ([61] ++ [61]). rewrite app_assoc.
    now rewrite !strip_equals_snoc.
Qed.

Lemma mapM_value_char vs :
  Forall is_sextet vs -> mapM base64_value (map base64_char vs) = Some vs.
Proof.
  intros Hvs. apply mapM_Some. induction Hvs as [|v vs Hv _ IH]; constructor.
  - now apply base64_value_char.
  - exact IH.
Qed.

(** [atob] undoes the encoder. *)
Lemma atob_encode b : Forall is_byte b -> atob (base64_encode b) = Ok b.
Proof.
  intros Hb. unfold atob. rewrite encode_no_whitespace by assumption.
  destruct (encode_length b) as [H4 H1].
  replace (Z.of_nat (List.length (base64_encode b)) mod 4 =? 0) with true.
  2:{ symmetry. apply Z.eqb_eq. change 4 with (Z.of_nat 4).
      rewrite <- Nat2Z.inj_mod. now rewrite H4. }
  rewrite strip_padding_encode by assumption. rewrite length_map.
  replace (Z.of_nat (List.length (sextets b)) mod 4 =? 1) with false.
  2:{ symmetry. apply Z.eqb_neq. change 4 with (Z.of_nat 4).
      rewrite <- Nat2Z.inj_mod. lia. }
  rewrite mapM_value_char by now apply sextets_range.
  now rewrite decode_sextets_sextets.
Qed.

(** Whatever [atob] returns is a string of bytes. *)
Lemma atob_bytes s bin : atob s = Ok bin -> Forall is_byte bin.
Proof.
  unfold atob. intros H.
  repeat case_match; try discriminate; injection H as <-; apply decode_sextets_bytes.
Qed.

(** ** The loop of [decode] *)

Lemma fill_prefix (bin : jsstring) (k : nat) :
  (k <= List.length bin)%nat ->
  fill bin (new_Uint8Array (Z.of_nat (List.length bin))) (indices (Z.of_nat k)) =
  {| buffer := map (fun c => c mod 256) (take k bin)
               ++ replicate (List.length bin - k) 0;
     byteOffset := 0;
     length := Z.of_nat (List.length bin) |}.
Proof.
  unfold fill. induction k as [|k IH]; intros Hk.
  - cbn. unfold new_Uint8Array. now rewrite Nat2Z.id, Nat.sub_0_r.
  - rewrite indices_S, foldl_app, IH by lia. cbn [foldl].
    destruct (lookup_lt_is_Some_2 bin k ltac:(lia)) as [c Hc].
    unfold Uint8Array_set, charCodeAt. cbn [length byteOffset buffer].
    replace ((0 <=? Z.of_nat k) && (Z.of_nat k <? Z.of_nat (List.length bin)))
      with true
      by (symmetry; apply andb_true_iff; split;
          [apply Z.leb_le | apply Z.ltb_lt]; lia).
    replace (0 <=? Z.of_nat k) with true by (symmetry; apply Z.leb_le; lia).
    rewrite Z.add_0_l, Nat2Z.id, Hc. cbn [ToUint8]. f_equal.
    rewrite (take_S_r _ _ _ Hc), map_app. cbn [map].
    replace (List.length bin - k)%nat with (S (List.length bin - S k)) by lia.
    cbn [replicate].
    rewrite insert_app_r_alt by (rewrite length_map, length_take; lia).
    rewrite length_map, length_take.
    replace (k - k `min` List.length bin)%nat with 0%nat by lia.
    cbn. now rewrite <- app_assoc.
Qed.

Lemma map_mod_bytes bin : Forall is_byte bin -> map (fun c => c mod 256) bin = bin.
Proof.
  induction 1 as [|c bin Hc _ IH]; [reflexivity|]. cbn. rewrite IH. f_equal.
  apply Z.mod_small. exact Hc.
Qed.

(** [decode] returns the binary string of [atob], byte for byte, in an
    array of its own. *)
Lemma decode_atob s bin : atob s = Ok bin -> decode s = Ok (Uint8Array_of bin).
Proof.
  intros H. unfold decode. rewrite H. cbn [mbind Exc_bind]. f_equal.
  rewrite (fill_prefix bin (List.length bin)) by lia.
  unfold Uint8Array_of.
  rewrite firstn_all, Nat.sub_diag, app_nil_r.
  now rewrite (map_mod_bytes _ (atob_bytes _ _ H)).
Qed.

Lemma decode_throws s e : atob s = Throw e -> decode s = Throw e.
Proof. intros H. unfold decode. now rewrite H. Qed.

(** C10. [decode] is a left inverse of standard base64 encoding: decoding
    the encoding of a byte array gives the array back; and for every
    string that [atob] accepts, the array returned is as long as the binary
    string and its byte [i] is the character code of the [i]-th
    character. *)
Theorem decode_inverts_base64 :
  (forall b : list Z,
      Forall is_byte b -> decode (base64_encode b) = Ok (Uint8Array_of b)) /\
  (forall s bin : jsstring,
      atob s = Ok bin ->
      exists bytes,
        decode s = Ok bytes /\
        length bytes = Z.of_nat (List.length bin) /\
        forall i, 0 <= i < Z.of_nat (List.length bin) ->
          Uint8Array_get bytes i = charCodeAt bin i).
Proof.
  split.
  - intros b Hb. apply decode_atob, atob_encode, Hb.
  - intros s bin Hs. exists (Uint8Array_of bin). split; [|split].
    + now apply decode_atob.
    + reflexivity.
    + intros i Hi. unfold Uint8Array_get, charCodeAt, Uint8Array_of. cbn.
      replace ((0 <=? i) && (i <? Z.of_nat (List.length bin))) with true
        by (symmetry; apply andb_true_iff; split;
            [apply Z.leb_le | apply Z.ltb_lt]; lia).
      replace (0 <=? i) with true by (symmetry; apply Z.leb_le; lia).
      reflexivity.
Qed.

Lemma decode_inverts_base64_witness :
  decode (base64_encode [104; 105; 33; 255]) = Ok (Uint8Array_of [104; 105; 33; 255]) /\
  exists bytes,
    decode (js "aGk=") = Ok bytes /\
    length bytes = 2 /\
    forall i, 0 <= i < 2 -> Uint8Array_get bytes i = charCodeAt (js "hi") i.
Proof.
  split.
  - apply (proj1 decode_inverts_base64).
    repeat constructor; unfold is_byte; lia.
  - apply (proj2 decode_inverts_base64 (js "aGk=") (js "hi")). reflexivity.
Defined.

End Base64Facts.

(* ================================================================== *)
(** * Properties of [decodeAudioData]                                  *)
(* ================================================================== *)

Module AudioFacts.
Import Base64 Audio.

(** ** Numbers *)

Lemma Qfloor_div (n c : Z) : 0 < c -> Qfloor (inject_Z n / inject_Z c) = n / c.
Proof.
  intros Hc. destruct c as [|p|p]; try lia.
  unfold Qdiv, Qinv, Qmult, inject_Z, Qfloor. cbn.
  now rewrite Z.mul_1_r.
Qed.

Lemma Qceiling_div (n c : Z) :
  0 < c -> Qceiling (inject_Z n / inject_Z c) = - ((- n) / c).
Proof.
  intros Hc. unfold Qceiling. f_equal.
  destruct c as [|p|p]; try lia.
  unfold Qdiv, Qinv, Qmult, Qopp, inject_Z, Qfloor. cbn.
  now rewrite Z.mul_1_r.
Qed.

Lemma truncate_div (n c : Z) :
  0 <= n -> 0 < c -> truncate (inject_Z n / inject_Z c) = n / c.
Proof.
  intros Hn Hc. unfold truncate.
  replace (Qle_bool 0 (inject_Z n / inject_Z c)) with true; [now apply Qfloor_div|].
  symmetry. apply Qle_bool_iff.
  destruct c as [|p|p]; try lia.
  unfold Qdiv, Qinv, Qmult, Qle, inject_Z. cbn. lia.
Qed.

Lemma floor_le_ceiling (n c : Z) : 0 < c -> n / c <= - (- n / c).
Proof.
  intros Hc.
  pose proof (Z.mul_div_le n c ltac:(lia)).
  pose proof (Z.mul_div_le (-n) c ltac:(lia)).
  assert (c * (n / c) + c * (- n / c) <= 0) by lia.
  nia.
Qed.

(** ** 16-bit samples *)

Lemma list_ind2 {A} (P : list A -> Prop) :
  P [] -> (forall x, P [x]) -> (forall x y rest, P rest -> P (x :: y :: rest)) ->
  forall l, P l.
Proof.
  intros H0 H1 H2. fix IH 1.
  intros [|x [|y rest]]; [apply H0 | apply H1 | apply H2, IH].
Qed.

Lemma int16s_length bytes :
  Z.of_nat (List.length (int16s bytes)) = Z.of_nat (List.length bytes) / 2.
Proof.
  induction bytes as [|x|x y rest IH] using list_ind2.
  - reflexivity.
  - reflexivity.
  - cbn [int16s List.length]. rewrite !Nat2Z.inj_succ, IH.
    Z.div_mod_to_equations; lia.
Qed.

(** ** Writing one sample *)

Lemma set_sample_lookup b c i v c' i' :
  sample_nat (set_sample b c i v) c' i' =
  if decide (c' = Z.to_nat c /\ i' = Z.to_nat i /\ is_Some (sample_nat b c' i'))
  then Some v else sample_nat b c' i'.
Proof.
  unfold sample_nat, set_sample. cbn [channels].
  destruct (decide (c' = Z.to_nat c)) as [->|Hc].
  - rewrite list_lookup_alter_eq.
    destruct (channels b !! Z.to_nat c) as [data|] eqn:Hd; cbn.
    + destruct (decide (i' = Z.to_nat i)) as [->|Hi].
      * destruct (data !! Z.to_nat i) as [x|] eqn:Hx.
        -- rewrite list_lookup_insert_eq by (eapply lookup_lt_Some; eauto).
           rewrite decide_True; [reflexivity|]. repeat split; eauto.
        -- rewrite list_insert_ge by (now apply lookup_ge_None).
           rewrite Hx. rewrite decide_False; [reflexivity|].
           intros (_ & _ & [? ?]); discriminate.
      * rewrite list_lookup_insert_ne by congruence.
        rewrite decide_False; [reflexivity|]. intros (_ & ? & _); contradiction.
    + rewrite decide_False; [reflexivity|]. intros (_ & _ & [? ?]); discriminate.
  - rewrite list_lookup_alter_ne by congruence.
    rewrite decide_False; [reflexivity|]. intros (? & _); contradiction.
Qed.

(** ** The inner loop: [m] iterations on channel [c] *)

Lemma inner_loop (f : Z -> Sample) (c : Z) (m : nat) (b : AudioBuffer) :
  let b' := foldl (fun b i => set_sample b c i (f i)) b (indices (Z.of_nat m)) in
  numberOfChannels b' = numberOfChannels b /\
  frames b' = frames b /\
  sampleRate b' = sampleRate b /\
  forall c' i',
    sample_nat b' c' i' =
    if decide (c' = Z.to_nat c /\ (i' < m)%nat /\ is_Some (sample_nat b c' i'))
    then Some (f (Z.of_nat i')) else sample_nat b c' i'.
Proof.
  induction m as [|m IH]; cbn zeta.
  - cbn. repeat split; try reflexivity. intros c' i'.
    rewrite decide_False; [reflexivity|]. intros (_ & ? & _); lia.
  - rewrite Base64Facts.indices_S, foldl_app. cbn [foldl].
    cbn zeta in IH. destruct IH as (H1 & H2 & H3 & H4).
    set (b1 := foldl _ b _) in *.
    repeat split; try assumption.
    intros c' i'. rewrite set_sample_lookup, Nat2Z.id, !H4.
    destruct (sample_nat b c' i') as [x|] eqn:Hb.
    + repeat case_decide; destruct_and?; subst; try reflexivity.
      all: try (exfalso; lia).
      all: try (exfalso;
        match goal with H : ¬ _ |- _ => apply H; repeat split; eauto; lia end).
      exfalso. destruct (decide (i' = m)); [apply H | apply H0];
        repeat split; eauto; lia.
    + repeat case_decide; destruct_and?; subst; try reflexivity.
      all: exfalso;
        match goal with H : is_Some None |- _ => destruct H; discriminate end.
Qed.

Lemma forM_app {St} (f : Z -> St -> Exc St) l1 l2 s :
  forM f (l1 ++ l2) s = (s' ← forM f l1 s; forM f l2 s').
Proof.
  revert s. induction l1 as [|i l1 IH]; intros s; cbn; [reflexivity|].
  destruct (f i s); cbn; [apply IH | reflexivity].
Qed.

(** ** The decoder on a payload it accepts *)

Section Decoder.
Variable ctx : AudioContext.
Variable payload : list Z.
Variables rate C : Z.

Let pcm := int16s payload.
Let n := Z.of_nat (List.length pcm).
Let F := (n / C) mod 4294967296.

Hypothesis even_length : Z.of_nat (List.length payload) mod 2 = 0.
Hypothesis channels_ok : 1 <= C <= maxChannels ctx.
Hypothesis frames_ok : F <> 0.
Hypothesis rate_ok : minSampleRate ctx <= rate <= maxSampleRate ctx.

Let g (c i : Z) : Sample := div_32768 (pcm !! Z.to_nat (i * C + c)).

Let fresh : AudioBuffer :=
  {| numberOfChannels := C; frames := F; sampleRate := rate;
     channels := replicate (Z.to_nat C) (replicate (Z.to_nat F) (Num 0)) |}.

Lemma createBuffer_fresh :
  createBuffer ctx C (inject_Z n / inject_Z C) rate = Ok fresh.
Proof.
  unfold createBuffer, to_unsigned_long.
  rewrite truncate_div by (subst n; lia). fold F.
  replace (C <=? 0) with false by (symmetry; apply Z.leb_gt; lia).
  replace (maxChannels ctx <? C) with false by (symmetry; apply Z.ltb_ge; lia).
  replace (F =? 0) with false by (symmetry; now apply Z.eqb_neq).
  replace (rate <? minSampleRate ctx) with false
    by (symmetry; apply Z.ltb_ge; lia).
  replace (maxSampleRate ctx <? rate) with false
    by (symmetry; apply Z.ltb_ge; lia).
  reflexivity.
Qed.

Lemma F_bounds : 0 < F <= n / C.
Proof.
  assert (0 <= n / C) by (apply Z.div_pos; subst n; lia).
  pose proof (Z.mod_pos_bound (n / C) 4294967296 ltac:(lia)).
  pose proof (Z.mod_le (n / C) 4294967296 ltac:(lia) ltac:(lia)).
  subst F. lia.
Qed.

Lemma sample_fresh c' i' :
  sample_nat fresh c' i' =
  if decide ((c' < Z.to_nat C)%nat /\ (i' < Z.to_nat F)%nat)
  then Some (Num 0) else None.
Proof.
  unfold sample_nat, fresh. cbn [channels].
  destruct (decide (c' < Z.to_nat C)%nat) as [Hc|Hc].
  - rewrite lookup_replicate_2 by assumption. cbn.
    destruct (decide (i' < Z.to_nat F)%nat) as [Hi|Hi].
    + rewrite lookup_replicate_2 by assumption. now rewrite decide_True.
    + rewrite (proj1 (lookup_replicate_None _ _ _)) by lia.
      rewrite decide_False; [reflexivity | tauto].
  - rewrite (proj1 (lookup_replicate_None _ _ _)) by lia. cbn.
    rewrite decide_False; [reflexivity | tauto].
Qed.

(** The inner loop runs at least once per frame. *)
Lemma iterations :
  exists m : nat,
    Qceiling (inject_Z n / inject_Z C) = Z.of_nat m /\ (Z.to_nat F <= m)%nat.
Proof.
  exists (Z.to_nat (Qceiling (inject_Z n / inject_Z C))).
  rewrite Qceiling_div by lia.
  pose proof (floor_le_ceiling n C ltac:(lia)). pose proof F_bounds.
  split; [rewrite Z2Nat.id; lia | lia].
Qed.

Let body (channel : Z) (buffer : AudioBuffer) : Exc AudioBuffer :=
  _ ← getChannelData buffer channel;
  Ok (foldl (fun buffer i => set_sample buffer channel i (g channel i))
            buffer (indices_below (inject_Z n / inject_Z C))).

Lemma body_step k b :
  (k < Z.to_nat C)%nat -> written g C F rate k b ->
  exists b', body (Z.of_nat k) b = Ok b' /\ written g C F rate (S k) b'.
Proof.
  intros Hk (H1 & H2 & H3 & H4). unfold body, getChannelData.
  rewrite H1.
  replace ((0 <=? Z.of_nat k) && (Z.of_nat k <? C)) with true
    by (symmetry; apply andb_true_iff; split;
        [apply Z.leb_le | apply Z.ltb_lt]; lia).
  rewrite Nat2Z.id.
  pose proof F_bounds as HF.
  pose proof (H4 k 0%nat) as H0. rewrite decide_True in H0 by lia.
  unfold sample_nat in H0.
  destruct (channels b !! k) as [data|] eqn:Hd; [|discriminate].
  cbn [mbind Exc_bind]. eexists; split; [reflexivity|].
  destruct iterations as (m & Hm & Hle).
  unfold indices_below. rewrite Hm.
  destruct (inner_loop (g (Z.of_nat k)) (Z.of_nat k) m b) as (I1 & I2 & I3 & I4).
  split; [congruence|]. split; [congruence|]. split; [congruence|].
  intros c' i'. rewrite I4, Nat2Z.id, !H4.
  destruct (decide ((c' < Z.to_nat C)%nat /\ (i' < Z.to_nat F)%nat))
    as [[Hc Hi]|Hn].
  - destruct (decide (c' = k)) as [->|Hck].
    + rewrite decide_True by (repeat split; eauto; lia).
      rewrite decide_True by lia. reflexivity.
    + rewrite decide_False by tauto.
      destruct (decide (c' < k)%nat).
      * rewrite decide_True by lia. reflexivity.
      * rewrite decide_False by lia. reflexivity.
  - rewrite decide_False; [reflexivity|]. intros (_ & _ & [? ?]); discriminate.
Qed.

Lemma outer_loop k :
  (k <= Z.to_nat C)%nat ->
  exists b, forM body (indices (Z.of_nat k)) fresh = Ok b /\ written g C F rate k b.
Proof.
  induction k as [|k IH]; intros Hk.
  - exists fresh. split; [reflexivity|]. repeat split.
    intros c' i'. rewrite sample_fresh.
    case_decide; [|reflexivity]. rewrite decide_False by lia. reflexivity.
  - destruct IH as (b & Hb & Hw); [lia|].
    destruct (body_step k b ltac:(lia) Hw) as (b' & Hb' & Hw').
    exists b'. split; [|exact Hw'].
    rewrite Base64Facts.indices_S, forM_app, Hb. cbn. now rewrite Hb'.
Qed.

Lemma decodeAudioData_written :
  exists b,
    decodeAudioData (Uint8Array_of payload) ctx rate C = Ok b /\
    written g C F rate (Z.to_nat C) b.
Proof.
  destruct (outer_loop (Z.to_nat C) ltac:(lia)) as (b & Hb & Hw).
  exists b. split; [|exact Hw].
  unfold decodeAudioData, new_Int16Array. cbn [buffer Uint8Array_of].
  rewrite even_length. cbn [Z.eqb mbind Exc_bind].
  fold pcm. fold n. rewrite createBuffer_fresh.
  rewrite Z2Nat.id in Hb by lia. exact Hb.
Qed.
End Decoder.

(** What the decoder returns for a payload of even length [L] that holds at
    least one whole frame (and fewer than 2^32): the shape of the buffer and
    every one of its samples. *)
Lemma decodeAudioData_spec (ctx : AudioContext) (payload : list Z) (rate C : Z) :
  let L := Z.of_nat (List.length payload) in
  L mod 2 = 0 ->
  1 <= C <= maxChannels ctx ->
  1 <= L / 2 / C < 4294967296 ->
  minSampleRate ctx <= rate <= maxSampleRate ctx ->
  exists b,
    decodeAudioData (Uint8Array_of payload) ctx rate C = Ok b /\
    numberOfChannels b = C /\
    frames b = L / 2 / C /\
    sampleRate b = rate /\
    (forall c i, 0 <= c < C -> 0 <= i < L / 2 / C ->
       exists v, pcm_sample payload (i * C + c) = Some v /\
                 sample_at b c i = Some (Num (inject_Z v / 32768))) /\
    (forall c i, 0 <= c -> 0 <= i -> ~ (c < C /\ i < L / 2 / C) ->
       sample_at b c i = None).
Proof.
  intros L Heven HC HF Hrate.
  assert (HFm : (Z.of_nat (List.length (int16s payload)) / C) mod 4294967296
                = L / 2 / C).
  { rewrite int16s_length. fold L. apply Z.mod_small. lia. }
  destruct (decodeAudioData_written ctx payload rate C Heven HC ltac:(lia) Hrate)
    as (b & Hb & H1 & H2 & H3 & H4).
  exists b. rewrite HFm in *. repeat split; try assumption.
  - intros c i Hc Hi. unfold sample_at. rewrite H4.
    rewrite decide_True by lia. rewrite decide_True by lia.
    rewrite !Z2Nat.id by lia.
    assert (Hk : i * C + c < Z.of_nat (List.length (int16s payload))).
    { rewrite int16s_length. fold L.
      pose proof (Z.mul_div_le (L / 2) C ltac:(lia)). nia. }
    unfold pcm_sample.
    destruct (lookup_lt_is_Some_2 (int16s payload) (Z.to_nat (i * C + c))
                ltac:(lia)) as [v Hv].
    exists v. rewrite Hv. split; reflexivity.
  - intros c i Hc Hi Hn. unfold sample_at. rewrite H4.
    rewrite decide_False; [reflexivity | lia].
Qed.

(** C5, as the code has it. For a payload of even length [L] and a channel
    count [C >= 1] that leave at least one whole frame (and fewer than 2^32
    frames), the decoder returns a buffer of exactly [floor(L/2/C)] frames:
    the quotient is truncated, and a trailing partial frame is dropped, so
    no channel has a sample at or after that index. *)
Theorem frame_count_truncates
    (ctx : AudioContext) (payload : list Z) (rate C : Z) :
  let L := Z.of_nat (List.length payload) in
  L mod 2 = 0 ->
  1 <= C <= maxChannels ctx ->
  1 <= L / 2 / C < 4294967296 ->
  minSampleRate ctx <= rate <= maxSampleRate ctx ->
  exists b,
    decodeAudioData (Uint8Array_of payload) ctx rate C = Ok b /\
    numberOfChannels b = C /\
    frames b = L / 2 / C /\
    forall c i, 0 <= c < C -> 0 <= i ->
      (is_Some (sample_at b c i) <-> i < L / 2 / C).
Proof.
  intros L Heven HC HF Hrate.
  destruct (decodeAudioData_spec ctx payload rate C Heven HC HF Hrate)
    as (b & Hb & H1 & H2 & _ & Hin & Hout).
  subst L. cbv zeta in *.
  exists b. split; [assumption|]. split; [assumption|]. split; [assumption|].
  intros c i Hc Hi0. split.
  - intros [x Hx].
    destruct (Z.lt_ge_cases i (Z.of_nat (List.length payload) / 2 / C))
      as [|Hge]; [assumption|].
    rewrite (Hout c i) in Hx by lia. discriminate.
  - intros Hi. destruct (Hin c i ltac:(lia) ltac:(lia)) as (v & _ & Hv). eauto.
Qed.

(** Ten bytes in two channels: five samples, two whole frames. *)
Lemma frame_count_truncates_witness :
  exists b,
    decodeAudioData (Uint8Array_of [0; 0; 255; 127; 0; 128; 1; 0; 2; 0])
                    audioContext 24000 2 = Ok b /\
    numberOfChannels b = 2 /\
    frames b = 2 /\
    forall c i, 0 <= c < 2 -> 0 <= i -> (is_Some (sample_at b c i) <-> i < 2).
Proof.
  apply (frame_count_truncates audioContext
           [0; 0; 255; 127; 0; 128; 1; 0; 2; 0] 24000 2);
    evaluate.
Defined.

(** C5 as stated fails: a payload of three bytes on one channel should
    give [floor(3/2/1) = 1] frame, but an [Int16Array] cannot be laid over
    a buffer of odd length, and the decoder throws. *)
Lemma odd_payload_has_no_frame_count :
  Z.of_nat (List.length [0; 0; 0]) / 2 / 1 = 1 /\
  decodeAudioData (Uint8Array_of [0; 0; 0]) audioContext 24000 1 = Throw RangeError.
Proof. split; reflexivity. Qed.

(** C6. For every payload the decoder accepts, of [L] bytes on [C]
    channels, the decoder returns a buffer of [C] channels and [L/2/C]
    frames at the rate asked for, and the sample of channel [c] at frame
    [i], for every [c < C] and [i < L/2/C], is [pcm[i * C + c] / 32768],
    exactly: the extreme and the zero sample values map to -1, 32767/32768
    and 0. *)
Theorem samples_are_normalised
    (ctx : AudioContext) (payload : list Z) (rate C : Z) :
  let L := Z.of_nat (List.length payload) in
  L mod 2 = 0 ->
  1 <= C <= maxChannels ctx ->
  1 <= L / 2 / C < 4294967296 ->
  minSampleRate ctx <= rate <= maxSampleRate ctx ->
  (exists b,
     decodeAudioData (Uint8Array_of payload) ctx rate C = Ok b /\
     numberOfChannels b = C /\
     frames b = L / 2 / C /\
     sampleRate b = rate /\
     forall c i, 0 <= c < C -> 0 <= i < L / 2 / C ->
       exists v, pcm_sample payload (i * C + c) = Some v /\
                 sample_at b c i = Some (Num (inject_Z v / 32768))) /\
  (inject_Z (-32768) / 32768 == -1)%Q /\
  (inject_Z 32767 / 32768 == 32767 # 32768)%Q /\
  (inject_Z 0 / 32768 == 0)%Q.
Proof.
  intros L Heven HC HF Hrate. split; [|repeat split; reflexivity].
  destruct (decodeAudioData_spec ctx payload rate C Heven HC HF Hrate)
    as (b & Hb & H1 & H2 & H3 & Hin & _).
  subst L. cbv zeta in *.
  exists b. do 4 (split; [assumption|]). exact Hin.
Qed.

(** Eight bytes on two channels: the samples 0, 32767, -32768 and 1 land in
    two frames, channel by channel. *)
Lemma samples_are_normalised_witness :
  let payload := [0; 0; 255; 127; 0; 128; 1; 0] in
  (exists b,
     decodeAudioData (Uint8Array_of payload) audioContext 24000 2 = Ok b /\
     numberOfChannels b = 2 /\
     frames b = 2 /\
     sampleRate b = 24000 /\
     sample_at b 0 0 = Some (Num (inject_Z 0 / 32768)) /\
     sample_at b 1 0 = Some (Num (inject_Z 32767 / 32768)) /\
     sample_at b 0 1 = Some (Num (inject_Z (-32768) / 32768)) /\
     sample_at b 1 1 = Some (Num (inject_Z 1 / 32768))) /\
  (inject_Z (-32768) / 32768 == -1)%Q /\
  (inject_Z 32767 / 32768 == 32767 # 32768)%Q /\
  (inject_Z 0 / 32768 == 0)%Q.
Proof.
  cbv zeta.
  destruct (samples_are_normalised audioContext
              [0; 0; 255; 127; 0; 128; 1; 0] 24000 2)
    as [(b & Hb & H1 & H2 & H3 & Hs) Hq]; [evaluate ..|].
  split; [|exact Hq].
  exists b. do 4 (split; [assumption|]).
  destruct (Hs 0 0) as (v00 & Hp00 & ->); [lia | evaluate |].
  destruct (Hs 1 0) as (v10 & Hp10 & ->); [lia | evaluate |].
  destruct (Hs 0 1) as (v01 & Hp01 & ->); [lia | evaluate |].
  destruct (Hs 1 1) as (v11 & Hp11 & ->); [lia | evaluate |].
  vm_compute in Hp00, Hp10, Hp01, Hp11.
  injection Hp00 as <-. injection Hp10 as <-.
  injection Hp01 as <-. injection Hp11 as <-.
  repeat split.
Defined.

End AudioFacts.

(* ================================================================== *)
(** * Properties of [performLookup]                                    *)
(* ================================================================== *)

Module LookupFacts.
Import Lookup.

(** ** Spreading a parsed value *)

Lemma spread_members_lookup (ms : list (jsstring * JSValue)) (o : JSObject) key :
  foldl (fun o kv => <[kv.1 := kv.2]> o) o ms !! key =
  match lookup_member key ms with
  | Some v => Some v
  | None => o !! key
  end.
Proof.
  revert o. induction ms as [|[k v] ms IH]; intros o; cbn [foldl lookup_member].
  - reflexivity.
  - rewrite IH. destruct (lookup_member key ms); [reflexivity|]. cbn.
    case_bool_decide as Hk.
    + subst. now rewrite lookup_insert_eq.
    + now rewrite lookup_insert_ne.
Qed.

(** The spread of an object reads like the object. *)
Lemma spread_object ms key : spread (JObject ms) !! key = lookup_member key ms.
Proof.
  unfold spread. cbn [own_properties]. rewrite spread_members_lookup.
  now destruct (lookup_member key ms).
Qed.

(** ** The entry *)

Lemma new_entry_other parsed now imgUrl st key :
  key ∉ stamped_keys -> new_entry parsed now imgUrl st !! key = spread parsed !! key.
Proof.
  unfold stamped_keys. intros Hk.
  repeat (apply not_elem_of_cons in Hk as [? Hk]).
  unfold new_entry. now rewrite !lookup_insert_ne.
Qed.

Lemma new_entry_stamps parsed now imgUrl st :
  new_entry parsed now imgUrl st !! js "id" = Some (JString (Number_toString now)) /\
  new_entry parsed now imgUrl st !! js "imageUrl" = Some (JString imgUrl) /\
  new_entry parsed now imgUrl st !! js "targetLang" = Some (JString (targetLang st)) /\
  new_entry parsed now imgUrl st !! js "nativeLang" = Some (JString (nativeLang st)).
Proof.
  unfold new_entry. repeat split.
  - rewrite !lookup_insert_ne by (vm_compute; discriminate). apply lookup_insert_eq.
  - rewrite !lookup_insert_ne by (vm_compute; discriminate). apply lookup_insert_eq.
  - rewrite !lookup_insert_ne by (vm_compute; discriminate). apply lookup_insert_eq.
  - apply lookup_insert_eq.
Qed.

(** ** The loop over the parts *)

Lemma image_url_from_none acc ps :
  Forall (fun p => inlineData p = None) ps -> image_url_from acc ps = acc.
Proof.
  unfold image_url_from. revert acc.
  induction ps as [|p ps IH]; intros acc Hps; cbn [foldl]; [reflexivity|].
  inversion_clear Hps as [|? ? Hp Hps']. rewrite Hp. now apply IH.
Qed.

(** No part with inline data: the URL keeps its initial value, the empty
    string. *)
Lemma image_url_none ps :
  Forall (fun p => inlineData p = None) ps -> image_url ps = [].
Proof. apply image_url_from_none. Qed.

(** ** The runs of [performLookup], case by case *)

Lemma performLookup_cases ai now q st :
  performLookup ai now q st =
  let req1 := text_request q (label (targetLang st)) (label (nativeLang st)) in
  match ai req1 with
  | Throw e => (finished st None, {| calls := [req1]; console := [e] |})
  | Ok resp =>
      match JSON_parse (or_else (text resp) (js "{}")) with
      | Throw e => (finished st None, {| calls := [req1]; console := [e] |})
      | Ok parsed =>
          match Get parsed (js "definition") with
          | Throw e => (finished st None, {| calls := [req1]; console := [e] |})
          | Ok definition =>
              if has_string definition then
                let req2 := image_request q definition in
                match ai req2 with
                | Throw e =>
                    (finished st None, {| calls := [req1; req2]; console := [e] |})
                | Ok imageResponse =>
                    match image_parts imageResponse with
                    | Throw e =>
                        (finished st None,
                         {| calls := [req1; req2]; console := [e] |})
                    | Ok ps =>
                        (finished st (Some (new_entry parsed now (image_url ps) st)),
                         {| calls := [req1; req2]; console := [] |})
                    end
                end
              else
                (finished st None, {| calls := [req1]; console := [TypeError] |})
          end
      end
  end.
Proof.
  unfold performLookup, lookup_body, generateContent, lift, template_value,
    mbind, Eff_bind, mret, Eff_ret.
  cbv zeta. cbn [app].
  destruct (ai (text_request _ _ _)) as [resp|e]; [|reflexivity].
  destruct (JSON_parse _) as [parsed|e]; [|reflexivity].
  destruct (Get parsed _) as [definition|e]; [|reflexivity].
  destruct (has_string definition); [|reflexivity].
  cbn [app]. destruct (ai (image_request _ _)) as [imageResponse|e]; [|reflexivity].
  destruct (image_parts _) as [ps|e]; reflexivity.
Qed.




(** C2, as the code has it. After a text response that parses (to anything
    but [null]), the outcome turns on the [definition] the image prompt
    interpolates. When it has a string, the image is asked for: if the
    image response carries a list of parts none of which has inline data,
    the lookup yields the entry, with every key of the parsed value but the
    four stamped ones, [imageUrl] the empty string and nothing on the
    console, and the entry is a [WordEntry] whenever the parsed value has
    the four fields of the schema; if the image request is rejected, the
    same [catch] takes it and the lookup yields no entry. When the
    [definition] has no string, the prompt cannot be built: a [TypeError]
    goes to the console, no image is asked for and there is no entry. *)
Theorem image_step_outcomes
    (ai : Service) (now : Z) (q : jsstring) (st : AppState)
    (resp : GenerateContentResponse) (parsed definition : JSValue) :
  ai (text_request q (label (targetLang st)) (label (nativeLang st))) = Ok resp ->
  JSON_parse (or_else (text resp) (js "{}")) = Ok parsed ->
  Get parsed (js "definition") = Ok definition ->
  let r := performLookup ai now q st in
  (has_string definition = true ->
   (forall imageResponse ps,
       ai (image_request q definition) = Ok imageResponse ->
       image_parts imageResponse = Ok ps ->
       Forall (fun p => inlineData p = None) ps ->
       exists entry,
         result r.1 = Some entry /\
         console r.2 = [] /\
         List.length (image_calls r.2) = 1%nat /\
         entry !! js "imageUrl" = Some (JString []) /\
         (forall key, key ∉ stamped_keys -> entry !! key = spread parsed !! key) /\
         (is_string (prop (spread parsed) (js "word")) = true ->
          is_string (prop (spread parsed) (js "definition")) = true ->
          is_examples (prop (spread parsed) (js "examples")) = true ->
          is_string (prop (spread parsed) (js "usage")) = true ->
          is_WordEntry entry = true)) /\
   (forall e,
       ai (image_request q definition) = Throw e ->
       result r.1 = None /\ console r.2 = [e])) /\
  (has_string definition = false ->
   result r.1 = None /\ console r.2 = [TypeError] /\ image_calls r.2 = []).
Proof.
  intros Hai Hparse Hget. cbv zeta. rewrite performLookup_cases. cbv zeta.
  rewrite Hai, Hparse, Hget. split; intros ->; [split|].
  - intros imageResponse ps Himg Hparts Hnone. rewrite Himg, Hparts.
    rewrite (image_url_none ps Hnone).
    exists (new_entry parsed now [] st).
    destruct (new_entry_stamps parsed now [] st) as (Hid & Hurl & Htl & Hnl).
    split; [reflexivity|]. split; [reflexivity|]. split; [reflexivity|].
    split; [exact Hurl|].
    split; [intros key Hkey; now apply new_entry_other|].
    intros Hw Hd He Hu. unfold is_WordEntry, prop.
    rewrite Hid, Hurl, Htl, Hnl.
    rewrite !new_entry_other
      by (unfold stamped_keys; intros Hin;
          repeat (apply elem_of_cons in Hin as [Hin|Hin]; [discriminate|]);
          inversion Hin).
    unfold prop in Hw, Hd, He, Hu. rewrite Hw, Hd, He, Hu. reflexivity.
  - intros e Himg. rewrite Himg. split; reflexivity.
  - repeat split.
Qed.

(** The three outcomes on three services: an image response without inline
    part, a rejected image request, a [definition] without string. *)
Lemma image_step_outcomes_witness :
  let parsed := default JNull (parse_result hello_json) in
  let r1 := performLookup (service hello_json (Ok (image_response [])))
                          1730000000000 (js "hello") english_spanish in
  let r2 := performLookup (service hello_json (Throw ServiceError))
                          1730000000000 (js "hello") english_spanish in
  let r3 := performLookup (service opaque_json (Ok (image_response [])))
                          1730000000000 (js "hello") english_spanish in
  (exists entry,
     result r1.1 = Some entry /\
     console r1.2 = [] /\
     List.length (image_calls r1.2) = 1%nat /\
     entry !! js "imageUrl" = Some (JString []) /\
     (forall key, key ∉ stamped_keys -> entry !! key = spread parsed !! key) /\
     is_WordEntry entry = true) /\
  (result r2.1 = None /\ console r2.2 = [ServiceError]) /\
  (result r3.1 = None /\ console r3.2 = [TypeError] /\ image_calls r3.2 = []).
Proof.
  cbv zeta. split; [|split].
  - destruct (proj1 (proj1 (image_step_outcomes
             (service hello_json (Ok (image_response [])))
             1730000000000 (js "hello") english_spanish
             (text_response hello_json)
             (default JNull (parse_result hello_json))
             (JString (js "a greeting"))
             eq_refl eq_refl eq_refl) eq_refl)
           (image_response []) [] eq_refl eq_refl (List.Forall_nil _))
      as (entry & H1 & H2 & H3 & H4 & H5 & H6).
    exists entry. repeat (split; [assumption|]).
    apply H6; reflexivity.
  - exact (proj2 (proj1 (image_step_outcomes
             (service hello_json (Throw ServiceError))
             1730000000000 (js "hello") english_spanish
             (text_response hello_json)
             (default JNull (parse_result hello_json))
             (JString (js "a greeting"))
             eq_refl eq_refl eq_refl) eq_refl)
           ServiceError eq_refl).
  - exact (proj2 (image_step_outcomes
             (service opaque_json (Ok (image_response [])))
             1730000000000 (js "hello") english_spanish
             (text_response opaque_json)
             (default JNull (parse_result opaque_json))
             (JObject [(js "toString", JNumber 1 0)])
             eq_refl eq_refl eq_refl) eq_refl).
Defined.

(** C2 as stated fails when the image request is rejected: the text step
    succeeded, yet the lookup ends with no entry and the rejection on the
    console. *)
Lemma image_rejection_loses_the_entry :
  let r := performLookup (service hello_json (Throw ServiceError))
                         1730000000000 (js "hello") english_spanish in
  parse_result hello_json <> None /\
  List.length (image_calls r.2) = 1%nat /\
  result r.1 = None /\
  console r.2 = [ServiceError].
Proof. repeat split; vm_compute; discriminate || reflexivity. Qed.

(** A lookup that ends with an entry went through every step. *)
Lemma performLookup_success ai now q st entry :
  result (performLookup ai now q st).1 = Some entry ->
  exists resp parsed definition imageResponse ps,
    ai (text_request q (label (targetLang st)) (label (nativeLang st))) = Ok resp /\
    JSON_parse (or_else (text resp) (js "{}")) = Ok parsed /\
    Get parsed (js "definition") = Ok definition /\
    has_string definition = true /\
    ai (image_request q definition) = Ok imageResponse /\
    image_parts imageResponse = Ok ps /\
    entry = new_entry parsed now (image_url ps) st.
Proof.
  rewrite performLookup_cases. cbv zeta.
  destruct (ai (text_request _ _ _)) as [resp|e] eqn:H1; [|discriminate].
  destruct (JSON_parse _) as [parsed|e] eqn:H2; [|discriminate].
  destruct (Get parsed _) as [definition|e] eqn:H3; [|discriminate].
  destruct (has_string definition) eqn:Hs; [|discriminate].
  destruct (ai (image_request _ _)) as [imageResponse|e] eqn:H4; [|discriminate].
  destruct (image_parts _) as [ps|e] eqn:H5; [|discriminate].
  cbn. intros [= <-]. exists resp, parsed, definition, imageResponse, ps.
  repeat split; assumption.
Qed.

(** C7, as the code has it. The [word] of the entry a lookup produces is
    the [word] of the parsed text response, copied by the spread: the one
    the model gave. It is the query when the model echoed the query. *)
Theorem entry_word_is_the_response_word
    (ai : Service) (now : Z) (q : jsstring) (st : AppState) (entry : JSObject) :
  result (performLookup ai now q st).1 = Some entry ->
  exists resp parsed,
    ai (text_request q (label (targetLang st)) (label (nativeLang st))) = Ok resp /\
    JSON_parse (or_else (text resp) (js "{}")) = Ok parsed /\
    entry !! js "word" = spread parsed !! js "word" /\
    (forall ms, parsed = JObject ms ->
       entry !! js "word" = lookup_member (js "word") ms) /\
    (forall ms, parsed = JObject ms ->
       lookup_member (js "word") ms = Some (JString q) ->
       entry !! js "word" = Some (JString q)).
Proof.
  intros H. apply performLookup_success in H
    as (resp & parsed & definition & imageResponse & ps
        & H1 & H2 & _ & _ & _ & _ & ->).
  exists resp, parsed. split; [assumption|]. split; [assumption|].
  assert (Hw : new_entry parsed now (image_url ps) st !! js "word"
               = spread parsed !! js "word").
  { apply new_entry_other. unfold stamped_keys. intros Hin.
    repeat (apply elem_of_cons in Hin as [Hin|Hin]; [discriminate|]).
    inversion Hin. }
  split; [exact Hw|]. split.
  - intros ms ->. rewrite Hw. apply spread_object.
  - intros ms -> Hq. rewrite Hw, spread_object. exact Hq.
Qed.

Lemma entry_word_is_the_response_word_witness :
  let ai := service hello_json (Ok (image_response [])) in
  let st := english_spanish in
  let q := js "hello" in
  let entry := new_entry (default JNull (parse_result hello_json))
                         1730000000000 [] english_spanish in
  exists resp parsed,
    ai (text_request q (label (targetLang st)) (label (nativeLang st))) = Ok resp /\
    JSON_parse (or_else (text resp) (js "{}")) = Ok parsed /\
    entry !! js "word" = spread parsed !! js "word" /\
    (forall ms, parsed = JObject ms ->
       entry !! js "word" = lookup_member (js "word") ms) /\
    (forall ms, parsed = JObject ms ->
       lookup_member (js "word") ms = Some (JString q) ->
       entry !! js "word" = Some (JString q)).
Proof.
  apply (entry_word_is_the_response_word
           (service hello_json (Ok (image_response [])))
           1730000000000 (js "hello") english_spanish).
  reflexivity.
Defined.

(** C7 as stated fails: asked for [hello], the model may answer with
    another [word], and the entry carries the answer, not the query. *)
Lemma entry_word_may_differ_from_query :
  let r := performLookup (service hola_json (Ok (image_response [])))
                         1730000000000 (js "hello") english_spanish in
  exists entry,
    result r.1 = Some entry /\
    entry !! js "word" = Some (JString (js "hola")) /\
    JString (js "hola") <> JString (js "hello").
Proof.
  cbv zeta. rewrite performLookup_cases. eexists. split; [reflexivity|].
  split; [vm_compute; reflexivity | discriminate].
Qed.

End LookupFacts.
(* ================================================================== *)
(** * Properties of the start-up effect                                *)
(* ================================================================== *)

Module HydrationFacts.
Import Hydration.

(** C8, as the code has it. At start-up the notebook is what
    [localStorage] holds, parsed. The store starts empty; if the blob is
    absent or the empty string the step throws nothing and leaves the store
    as it is; if the blob parses, the store becomes the parsed value and
    nothing else changes; if the blob does not parse, nothing catches the
    exception of [JSON.parse]: it escapes the step and the whole effect,
    and no state comes out of it. *)
Theorem notebook_hydration (ls : Storage) (st : AppState) :
  notebook initial = JArray [] /\
  (getItem ls (js "ai_dict_notebook") = None \/
   getItem ls (js "ai_dict_notebook") = Some [] ->
   hydrate_notebook ls st = Ok st) /\
  (forall blob v,
      getItem ls (js "ai_dict_notebook") = Some blob ->
      blob <> [] ->
      JSON_parse blob = Ok v ->
      exists st',
        hydrate_notebook ls st = Ok st' /\
        notebook st' = v /\
        nativeLang st' = nativeLang st /\
        targetLang st' = targetLang st /\
        isSetup st' = isSetup st) /\
  (forall blob e,
      getItem ls (js "ai_dict_notebook") = Some blob ->
      blob <> [] ->
      JSON_parse blob = Throw e ->
      hydrate_notebook ls st = Throw e /\
      hydrate ls st = Throw e).
Proof.
  split; [reflexivity|]. split; [|split].
  - intros [H|H]; unfold hydrate_notebook; now rewrite H.
  - intros blob v Hblob Hne Hparse. unfold hydrate_notebook. rewrite Hblob.
    destruct blob as [|c s]; [contradiction|]. rewrite Hparse.
    eexists. split; [reflexivity|]. repeat split.
  - intros blob e Hblob Hne Hparse. unfold hydrate, hydrate_notebook.
    rewrite Hblob. destruct blob as [|c s]; [contradiction|].
    rewrite Hparse. split; reflexivity.
Qed.

(** The four cases on four stores: no blob, the empty blob, a notebook of
    one entry, and a blob cut short. *)
Lemma notebook_hydration_witness :
  let key := js "ai_dict_notebook" in
  hydrate_notebook ∅ initial = Ok initial /\
  hydrate_notebook {[ key := [] ]} initial = Ok initial /\
  (exists st' entry,
     hydrate_notebook {[ key := saved_notebook ]} initial = Ok st' /\
     notebook st' = JArray [JObject entry] /\
     lookup_member (js "word") entry = Some (JString (js "hola")) /\
     nativeLang st' = nativeLang initial /\
     targetLang st' = targetLang initial /\
     isSetup st' = isSetup initial) /\
  (hydrate_notebook {[ key := js "[{" ]} initial = Throw SyntaxError /\
   hydrate {[ key := js "[{" ]} initial = Throw SyntaxError).
Proof.
  cbv zeta. split; [|split; [|split]].
  - apply (proj1 (proj2 (notebook_hydration ∅ initial))).
    left. reflexivity.
  - apply (proj1 (proj2 (notebook_hydration
                           {[ js "ai_dict_notebook" := [] ]} initial))).
    right. reflexivity.
  - destruct (proj1 (proj2 (proj2 (notebook_hydration
                {[ js "ai_dict_notebook" := saved_notebook ]} initial)))
              saved_notebook
              (default JNull (parse_result saved_notebook)))
      as (st' & H1 & H2 & H3 & H4 & H5);
      [reflexivity | vm_compute; discriminate | reflexivity |].
    exists st'. eexists. split; [exact H1|]. split; [exact H2|].
    split; [reflexivity|]. repeat split; assumption.
  - apply (proj2 (proj2 (proj2 (notebook_hydration
                   {[ js "ai_dict_notebook" := js "[{" ]} initial)))
             (js "[{") SyntaxError);
      [reflexivity | vm_compute; discriminate | reflexivity].
Defined.

(** C8 as stated fails for a blob that does not parse: nothing catches the
    [SyntaxError] of [JSON.parse], and it escapes the effect. *)
Lemma unparseable_blob_escapes :
  let ls : Storage := {[ js "ai_dict_notebook" := js "{" ]} in
  JSON_parse (js "{") = Throw SyntaxError /\
  hydrate ls initial = Throw SyntaxError.
Proof. split; vm_compute; reflexivity. Qed.

End HydrationFacts.

(* ================================================================== *)
(** * Properties of the notebook and of the flashcards                 *)
(* ================================================================== *)

Module NotebookFacts.
Import Notebook.

(** ** The save button *)

Lemma some_word_spec (e : WordEntry) (nb : list WordEntry) :
  existsb (fun n => bool_decide (word n = word e)) nb = true <->
  exists n, n ∈ nb /\ word n = word e.
Proof.
  rewrite existsb_exists. split.
  - intros (n & Hin & Hw). exists n. split; [now apply list_elem_of_In|].
    now apply bool_decide_eq_true in Hw.
  - intros (n & Hin & Hw). exists n. split; [now apply list_elem_of_In|].
    now apply bool_decide_eq_true.
Qed.

Lemma filter_all {A} (P : A -> Prop) `{forall x, Decision (P x)} (l : list A) :
  Forall P l -> filter P l = l.
Proof.
  induction 1 as [|x l Hx _ IH]; [reflexivity|].
  rewrite filter_cons_True by assumption. now rewrite IH.
Qed.

Lemma toggle_present (e : WordEntry) (nb : list WordEntry) :
  (exists n, n ∈ nb /\ word n = word e) ->
  toggle e nb = filter (fun n => word n ≠ word e) nb.
Proof.
  intros H. apply some_word_spec in H. unfold toggle. now rewrite H.
Qed.

Lemma toggle_absent (e : WordEntry) (nb : list WordEntry) :
  (forall n, n ∈ nb -> word n ≠ word e) -> toggle e nb = nb ++ [e].
Proof.
  intros H. unfold toggle.
  destruct (existsb _ nb) eqn:Hex; [|reflexivity].
  apply some_word_spec in Hex as (n & Hin & Hw). now destruct (H n Hin).
Qed.

(** C3, as the code has it. Toggling [e] when some entry has its word
    removes the entries with that word and adds nothing: what stays is the
    rest of the notebook, in order. Toggling [e] when no entry has its word
    appends [e] and touches nothing else; a second toggle of the same word
    then gives the notebook back. *)
Theorem toggle_saves_or_unsaves (e : WordEntry) (nb : list WordEntry) :
  ((exists n, n ∈ nb /\ word n = word e) ->
     toggle e nb = filter (fun n => word n ≠ word e) nb /\
     (forall n, n ∈ toggle e nb <-> n ∈ nb /\ word n ≠ word e) /\
     sublist (toggle e nb) nb) /\
  ((forall n, n ∈ nb -> word n ≠ word e) ->
     toggle e nb = nb ++ [e] /\
     forall e', word e' = word e -> toggle e' (toggle e nb) = nb).
Proof.
  split.
  - intros H. rewrite (toggle_present e nb H). split; [reflexivity|]. split.
    + intros n. rewrite list_elem_of_filter. tauto.
    + apply sublist_filter.
  - intros H. rewrite (toggle_absent e nb H). split; [reflexivity|].
    intros e' He'. rewrite toggle_present.
    + rewrite filter_app, filter_cons_False by (intros Hn; now apply Hn).
      rewrite filter_nil, app_nil_r. apply filter_all. apply Forall_forall.
      intros n Hn. rewrite He'. now apply H.
    + exists e. split; [|now symmetry]. apply elem_of_app. right. now left.
Qed.

Lemma toggle_saves_or_unsaves_witness :
  let nb := [entry "1" "hola"; entry "2" "adios"] in
  (toggle (entry "3" "hola") nb = filter (fun n => word n ≠ js "hola") nb /\
   (forall n, n ∈ toggle (entry "3" "hola") nb <-> n ∈ nb /\ word n ≠ js "hola") /\
   sublist (toggle (entry "3" "hola") nb) nb) /\
  (toggle (entry "4" "gato") nb = nb ++ [entry "4" "gato"] /\
   forall e', word e' = js "gato" ->
     toggle e' (toggle (entry "4" "gato") nb) = nb).
Proof.
  cbv zeta. split.
  - apply (proj1 (toggle_saves_or_unsaves (entry "3" "hola")
                    [entry "1" "hola"; entry "2" "adios"])).
    exists (entry "1" "hola"). split; [now left | reflexivity].
  - apply (proj2 (toggle_saves_or_unsaves (entry "4" "gato")
                    [entry "1" "hola"; entry "2" "adios"])).
    intros n Hn.
    repeat (apply elem_of_cons in Hn as [->|Hn]; [discriminate|]).
    inversion Hn.
Defined.

(** C3 as stated fails on its last clause when the word is already saved:
    the first toggle removes it, the second appends it at the end, and the
    notebook is not the one before. *)
Lemma toggle_twice_moves_a_saved_word :
  let nb := [entry "1" "hola"; entry "2" "adios"] in
  toggle (entry "1" "hola") (toggle (entry "1" "hola") nb)
    = [entry "2" "adios"; entry "1" "hola"] /\
  toggle (entry "1" "hola") (toggle (entry "1" "hola") nb) <> nb.
Proof. split; [vm_compute; reflexivity | vm_compute; discriminate]. Qed.

(** ** The flashcard navigator *)

Lemma handle_mounted e st : mounted st = true -> handle e st = click e st.
Proof. unfold handle. now intros ->. Qed.

Lemma handle_unmounted e st : mounted st = false -> handle e st = st.
Proof. unfold handle. now intros ->. Qed.

(** Off the study tab every state renders. *)
Lemma mounted_off_study st : activeTab st <> study -> mounted st = true.
Proof.
  unfold mounted, render. destruct (activeTab st); [reflexivity..|].
  now intros [].
Qed.

Lemma study_shown_mounted st : study_shown st = true -> mounted st = true.
Proof.
  unfold study_shown, mounted, render.
  destruct (activeTab st); try discriminate.
  destruct (notebook st); [discriminate|].
  destruct (current_card st); [reflexivity | discriminate].
Qed.

(** An index in bounds, on a notebook whose entries all have an example,
    names a card the flashcard can show. *)
Lemma in_bounds_current_card st :
  in_bounds st -> Forall has_example (notebook st) ->
  exists card example, current_card st = Ok (card, example).
Proof.
  unfold in_bounds, size, current_card. intros Hb Hex.
  replace (0 <=? currentCardIndex st) with true by (symmetry; apply Z.leb_le; lia).
  destruct (lookup_lt_is_Some_2 (notebook st) (Z.to_nat (currentCardIndex st))
              ltac:(lia)) as [card Hc].
  rewrite Hc.
  assert (He : has_example card).
  { rewrite Forall_forall in Hex. apply Hex.
    eapply list_elem_of_lookup_2; eauto. }
  unfold has_example in He. destruct (examples card) as [|example rest];
    [contradiction | eauto].
Qed.


Lemma in_bounds_study_shown st :
  activeTab st = study -> in_bounds st -> Forall has_example (notebook st) ->
  study_shown st = true.
Proof.
  intros Htab Hb Hex. unfold study_shown. rewrite Htab.
  destruct (in_bounds_current_card st Hb Hex) as (card & example & ->).
  unfold in_bounds, size in Hb. destruct (notebook st); [cbn in Hb; lia|].
  reflexivity.
Qed.

(** Only the remove and save buttons change the notebook. *)
Lemma handle_notebook e st :
  notebook (handle e st) = notebook st \/
  (exists i, e = ClickRemove i) \/ e = ClickSave.
Proof.
  unfold handle. destruct (mounted st); [|now left].
  destruct e; cbn; try (left; reflexivity); try (right; eauto; fail).
  - left. destruct (activeTab st), (notebook st !! i); reflexivity.
  - left. destruct (study_shown st); reflexivity.
  - left. destruct (study_shown st && negb (previous_disabled st)); reflexivity.
  - left. destruct (study_shown st && negb (next_disabled st)); reflexivity.
Qed.

(** The save and remove buttons, a finished lookup and the tabs leave the
    session alone: nothing resets it. *)
Lemma handle_keeps_session e st :
  e <> ClickCard -> e <> ClickPrevious -> e <> ClickNext ->
  session (handle e st) = session st.
Proof.
  intros H1 H2 H3. unfold handle. destruct (mounted st); [|reflexivity].
  destruct e; try contradiction; cbn; try reflexivity.
  - destruct (activeTab st), (result st); reflexivity.
  - destruct (activeTab st), (notebook st !! i); reflexivity.
  - destruct (activeTab st), (notebook st !! i); reflexivity.
Qed.


(** A card without example cannot be shown: the study tab throws on it, at
    the first render or when Next reaches it, and no click does anything
    after that. *)
Lemma card_without_example_unmounts :
  let st := handle ClickNext (studying [entry "1" "hola"; bare_entry "2" "adios"]) in
  render (studying [bare_entry "1" "hola"]) = Throw TypeError /\
  session st = (1, false) /\
  render st = Throw TypeError /\
  (forall e, handle e st = st).
Proof.
  cbv zeta. split; [reflexivity|]. split; [reflexivity|].
  split; [reflexivity|]. intros e. now apply handle_unmounted.
Qed.

(** C4, where the code leaves the claim. Three cards, each with its
    example, on the study tab: two clicks on Next lead to the last card, the
    card is turned, and on the notebook tab the first row is removed, every
    state so far rendering. Nothing adjusts the session: the index is 2 in a
    notebook of 2 and the card is still turned, where the claim has the
    session back at [(0, false)]. Back on the study tab the render reads a
    card that is not there and throws; the application is gone, and no
    event changes the state any more. *)
Theorem removal_leaves_index_out_of_bounds :
  let nb := [entry "1" "hola"; entry "2" "adios"; entry "3" "gato"] in
  let clicks := [ClickNext; ClickNext; ClickCard;
                 ClickTab notebook_tab; ClickRemove 0] in
  let st' := run (clicks ++ [ClickTab study]) (studying nb) in
  Forall has_example nb /\
  (forall k, mounted (run (take k clicks) (studying nb)) = true) /\
  notebook st' = [entry "2" "adios"; entry "3" "gato"] /\
  activeTab st' = study /\
  session st' = (2, true) /\
  ~ in_bounds st' /\
  render st' = Throw TypeError /\
  (forall e, handle e st' = st').
Proof.
  cbv zeta. split; [repeat constructor; discriminate|]. split.
  - intros k. do 6 (destruct k as [|k]; [reflexivity|]). reflexivity.
  - split; [reflexivity|]. split; [reflexivity|]. split; [reflexivity|]. split.
    + vm_compute. intros [_ H]. discriminate.
    + split; [reflexivity|]. intros e. now apply handle_unmounted.
Qed.




End NotebookFacts.

(* ================================================================== *)
(** * More on [decode] and [decodeAudioData]                            *)
(* ================================================================== *)

Module DecodingFacts.
Import Base64 Audio.

(** ** What [decode] accepts and rejects *)

Lemma strip_equals_keeps (c : Z) (l : jsstring) :
  c ∈ l -> c <> 61 -> c ∈ strip_equals l.
Proof.
  intros Hin Hc. unfold strip_equals.
  destruct (last l) as [x|] eqn:Hlast; [|exact Hin].
  destruct (Z.eqb_spec x 61) as [->|]; [|exact Hin].
  apply last_Some in Hlast as [l' ->].
  rewrite removelast_last.
  apply elem_of_app in Hin as [Hin|Hin]; [exact Hin|].
  apply list_elem_of_singleton in Hin. contradiction.
Qed.

Lemma atob_only_error s e : atob s = Throw e -> e = InvalidCharacterError.
Proof.
  unfold atob. intros H. repeat case_match; congruence.
Qed.

Lemma atob_rejects_foreign_character (s : jsstring) (c : Z) :
  c ∈ s ->
  is_ascii_whitespace c = false ->
  c <> 61 ->
  base64_value c = None ->
  atob s = Throw InvalidCharacterError.
Proof.
  intros Hin Hws Heq Hval. unfold atob.
  set (data := List.filter _ s).
  assert (Hd : c ∈ data).
  { apply list_elem_of_In, filter_In. split; [now apply list_elem_of_In|].
    now rewrite Hws. }
  set (data' := if _ =? 0 then strip_padding data else data).
  assert (Hd' : c ∈ data').
  { subst data'. destruct (_ =? 0); [|exact Hd].
    unfold strip_padding. now repeat apply strip_equals_keeps. }
  destruct (_ =? 1); [reflexivity|].
  rewrite (mapM_None_2 base64_value data'); [reflexivity|].
  apply Exists_exists. eauto.
Qed.

(** X1. A character that is neither ASCII white space, nor [=], nor in the
    base64 alphabet makes [decode] throw [InvalidCharacterError], wherever
    it stands. *)
Theorem decode_rejects_foreign_character (s : jsstring) (c : Z) :
  c ∈ s ->
  is_ascii_whitespace c = false ->
  c <> 61 ->
  base64_value c = None ->
  decode s = Throw InvalidCharacterError.
Proof.
  intros Hin Hws Heq Hval. apply Base64Facts.decode_throws.
  now apply (atob_rejects_foreign_character s c).
Qed.

Lemma decode_rejects_foreign_character_witness :
  decode (js "aGk_") = Throw InvalidCharacterError.
Proof.
  apply (decode_rejects_foreign_character (js "aGk_") 95).
  - vm_compute. repeat constructor.
  - reflexivity.
  - discriminate.
  - reflexivity.
Defined.

(** X2. [decode] has two outcomes only: it throws [InvalidCharacterError],
    or it returns an array that starts at offset 0, spans its whole buffer
    and holds bytes. *)
Theorem decode_outcomes (s : jsstring) :
  decode s = Throw InvalidCharacterError \/
  exists bytes,
    decode s = Ok bytes /\
    byteOffset bytes = 0 /\
    length bytes = Z.of_nat (List.length (buffer bytes)) /\
    Forall is_byte (buffer bytes).
Proof.
  destruct (atob s) as [bin|e] eqn:Ha.
  - right. exists (Uint8Array_of bin). split; [now apply Base64Facts.decode_atob|].
    split; [reflexivity|]. split; [reflexivity|].
    exact (Base64Facts.atob_bytes s bin Ha).
  - left. rewrite (Base64Facts.decode_throws s e Ha).
    now rewrite (atob_only_error s e Ha).
Qed.

(** X3. ASCII white space in the text is ignored, wherever it stands. *)
Theorem decode_ignores_whitespace (s1 s2 : jsstring) (w : Z) :
  is_ascii_whitespace w = true ->
  decode (s1 ++ w :: s2) = decode (s1 ++ s2).
Proof.
  intros Hw. unfold decode.
  assert (Ha : atob (s1 ++ w :: s2) = atob (s1 ++ s2)).
  { unfold atob. rewrite !List.filter_app. cbn [List.filter]. now rewrite Hw. }
  now rewrite Ha.
Qed.

Lemma decode_ignores_whitespace_witness :
  decode (js "aG" ++ 10 :: js "k=") = decode (js "aG" ++ js "k=").
Proof. apply (decode_ignores_whitespace (js "aG") (js "k=") 10). reflexivity. Defined.

(** X4. The padding is optional: [decode] also undoes the encoding written
    without its [=] signs. *)
Theorem decode_accepts_unpadded (b : list Z) :
  Forall is_byte b ->
  decode (map base64_char (sextets b)) = Ok (Uint8Array_of b).
Proof.
  intros Hb. apply Base64Facts.decode_atob. unfold atob.
  pose proof (Base64Facts.sextets_range b Hb) as Hr.
  assert (Hf : List.filter (fun c => negb (is_ascii_whitespace c))
                 (map base64_char (sextets b)) = map base64_char (sextets b)).
  { apply forallb_filter_id, forallb_forall. intros c Hc.
    apply in_map_iff in Hc as (v & <- & Hv). rewrite Forall_forall in Hr.
    rewrite Base64Facts.base64_char_not_whitespace; [reflexivity|].
    now apply Hr, list_elem_of_In. }
  rewrite Hf.
  assert (Hs : (if Z.of_nat (List.length (map base64_char (sextets b))) mod 4 =? 0
                then strip_padding (map base64_char (sextets b))
                else map base64_char (sextets b)) = map base64_char (sextets b)).
  { destruct (_ =? 0); [|reflexivity]. unfold strip_padding.
    now rewrite !Base64Facts.strip_equals_chars. }
  rewrite Hs, length_map.
  destruct (Base64Facts.encode_length b) as [_ H1].
  replace (Z.of_nat (List.length (sextets b)) mod 4 =? 1) with false.
  2:{ symmetry. apply Z.eqb_neq. change 4 with (Z.of_nat 4).
      rewrite <- Nat2Z.inj_mod. lia. }
  rewrite Base64Facts.mapM_value_char by assumption.
  now rewrite Base64Facts.decode_sextets_sextets.
Qed.

Lemma decode_accepts_unpadded_witness :
  decode (map base64_char (sextets [104; 105])) = Ok (Uint8Array_of [104; 105]).
Proof.
  apply (decode_accepts_unpadded [104; 105]).
  repeat constructor; unfold is_byte; lia.
Defined.

(** ** What [decodeAudioData] rejects *)

(** X5. Over a buffer of odd byte length the decoder throws [RangeError],
    whatever the other arguments: no [Int16Array] fits. *)
Theorem odd_buffer_is_a_range_error
    (data : Uint8Array) (ctx : AudioContext) (rate C : Z) :
  Z.of_nat (List.length (buffer data)) mod 2 = 1 ->
  decodeAudioData data ctx rate C = Throw RangeError.
Proof.
  intros Hodd. unfold decodeAudioData, new_Int16Array. now rewrite Hodd.
Qed.

Lemma odd_buffer_is_a_range_error_witness :
  decodeAudioData (Uint8Array_of [1; 2; 3; 4; 5]) audioContext 24000 1
  = Throw RangeError.
Proof.
  apply (odd_buffer_is_a_range_error (Uint8Array_of [1; 2; 3; 4; 5])).
  reflexivity.
Defined.

(** X6. Over a buffer of even length the decoder throws
    [NotSupportedError] when the channel count is not positive or exceeds
    what the context accepts, and when the buffer holds fewer samples than
    channels: there is no buffer of zero frames. The empty payload is the
    first such case. *)
Theorem no_whole_frame_is_not_supported
    (data : Uint8Array) (ctx : AudioContext) (rate C : Z) :
  let L := Z.of_nat (List.length (buffer data)) in
  L mod 2 = 0 ->
  C <= 0 \/ maxChannels ctx < C \/ L / 2 < C ->
  decodeAudioData data ctx rate C = Throw NotSupportedError.
Proof.
  intros L Heven Hbad. subst L. unfold decodeAudioData, new_Int16Array.
  rewrite Heven. cbn [Z.eqb mbind Exc_bind]. unfold createBuffer.
  destruct (Z.leb_spec C 0) as [|Hpos]; [reflexivity|].
  destruct (Z.ltb_spec (maxChannels ctx) C) as [|Hmax]; [reflexivity|].
  destruct Hbad as [?|[?|Hshort]]; try lia.
  unfold to_unsigned_long.
  rewrite AudioFacts.truncate_div by lia.
  rewrite AudioFacts.int16s_length.
  rewrite (Z.div_small (Z.of_nat (List.length (buffer data)) / 2) C).
  - reflexivity.
  - split; [apply Z.div_pos|]; lia.
Qed.

Lemma no_whole_frame_is_not_supported_witness :
  decodeAudioData (Uint8Array_of []) audioContext 24000 1 = Throw NotSupportedError /\
  decodeAudioData (Uint8Array_of [0; 1]) audioContext 24000 2 = Throw NotSupportedError.
Proof.
  split.
  - apply (no_whole_frame_is_not_supported (Uint8Array_of []) audioContext 24000 1).
    + reflexivity.
    + right; right. evaluate.
  - apply (no_whole_frame_is_not_supported (Uint8Array_of [0; 1]) audioContext 24000 2).
    + reflexivity.
    + right; right. evaluate.
Defined.

(** ** The range of the samples *)

Lemma int16_le_range lo hi :
  is_byte lo -> is_byte hi -> -32768 <= int16_le lo hi <= 32767.
Proof.
  unfold is_byte, int16_le. intros Hlo Hhi. cbv zeta.
  destruct (Z.ltb_spec (lo + 256 * hi) 32768); lia.
Qed.

Lemma int16s_range bytes :
  Forall is_byte bytes -> Forall (fun v => -32768 <= v <= 32767) (int16s bytes).
Proof.
  induction bytes as [|x|x y rest IH] using AudioFacts.list_ind2; intros Hb;
    cbn [int16s].
  - constructor.
  - constructor.
  - inversion_clear Hb as [|? ? Hx Hb']. inversion_clear Hb' as [|? ? Hy Hrest].
    constructor; [now apply int16_le_range | now apply IH].
Qed.

(** X7. Decoding a payload of bytes gives samples in [-1, 1): every sample
    of the buffer is a number [q] with [-1 <= q < 1]; no sample is [NaN]. *)
Theorem samples_are_in_range
    (ctx : AudioContext) (payload : list Z) (rate C : Z) :
  let L := Z.of_nat (List.length payload) in
  Forall is_byte payload ->
  L mod 2 = 0 ->
  1 <= C <= maxChannels ctx ->
  1 <= L / 2 / C < 4294967296 ->
  minSampleRate ctx <= rate <= maxSampleRate ctx ->
  exists b,
    decodeAudioData (Uint8Array_of payload) ctx rate C = Ok b /\
    forall c i, 0 <= c < C -> 0 <= i < frames b ->
      exists q, sample_at b c i = Some (Num q) /\ (-1 <= q)%Q /\ (q < 1)%Q.
Proof.
  intros L Hbytes Heven HC HF Hrate.
  destruct (AudioFacts.decodeAudioData_spec ctx payload rate C Heven HC HF Hrate)
    as (b & Hb & _ & H2 & _ & Hin & _).
  subst L. cbv zeta in *.
  exists b. split; [assumption|]. intros c i Hc Hi.
  destruct (Hin c i Hc ltac:(lia)) as (v & Hv & Hs).
  exists (inject_Z v / 32768)%Q. split; [exact Hs|].
  pose proof (int16s_range payload Hbytes) as Hr. rewrite Forall_forall in Hr.
  assert (Hvr : -32768 <= v <= 32767).
  { apply Hr. unfold pcm_sample in Hv. eapply list_elem_of_lookup_2. exact Hv. }
  unfold Qdiv, Qinv, Qmult, Qle, Qlt, inject_Z. cbn. lia.
Qed.

Lemma samples_are_in_range_witness :
  exists b,
    decodeAudioData (Uint8Array_of [0; 128; 255; 127]) audioContext 24000 1 = Ok b /\
    forall c i, 0 <= c < 1 -> 0 <= i < frames b ->
      exists q, sample_at b c i = Some (Num q) /\ (-1 <= q)%Q /\ (q < 1)%Q.
Proof.
  apply (samples_are_in_range audioContext [0; 128; 255; 127] 24000 1).
  - repeat constructor; unfold is_byte; lia.
  - reflexivity.
  - evaluate.
  - evaluate.
  - evaluate.
Defined.

End DecodingFacts.

(* ================================================================== *)
(** * More on [performLookup]                                          *)
(* ================================================================== *)

Module LookupMore.
Import Lookup.

(** X8. However a lookup ends, the loading flag is down, the tutor
    conversation is cleared, the language pair is untouched, and there is
    an error on the console exactly when there is no entry. *)
Theorem lookup_always_settles
    (ai : Service) (now : Z) (q : jsstring) (st : AppState) :
  let r := performLookup ai now q st in
  loading r.1 = false /\
  chatHistory r.1 = [] /\
  nativeLang r.1 = nativeLang st /\
  targetLang r.1 = targetLang st /\
  (result r.1 = None <-> console r.2 <> []) /\
  (List.length (console r.2) <= 1)%nat.
Proof.
  cbv zeta. rewrite LookupFacts.performLookup_cases. cbv zeta.
  destruct (ai (text_request _ _ _)) as [resp|e];
    [|cbn; repeat split; (discriminate || lia || congruence)].
  destruct (JSON_parse _) as [parsed|e];
    [|cbn; repeat split; (discriminate || lia || congruence)].
  destruct (Get parsed _) as [definition|e];
    [|cbn; repeat split; (discriminate || lia || congruence)].
  destruct (has_string definition);
    [|cbn; repeat split; (discriminate || lia || congruence)].
  destruct (ai (image_request _ _)) as [imageResponse|e];
    [|cbn; repeat split; (discriminate || lia || congruence)].
  destruct (image_parts _) as [ps|e];
    cbn; repeat split; (discriminate || lia || congruence).
Qed.


(** X10. When several parts of the image response carry inline data, the
    URL is built from the last of them: each one overwrites the
    previous. *)
Theorem last_inline_part_wins (ps qs : list Part) (p : Part) (blob : Blob) :
  inlineData p = Some blob ->
  Forall (fun p => inlineData p = None) qs ->
  image_url (ps ++ p :: qs) = data_url blob.
Proof.
  intros Hp Hqs. unfold image_url, image_url_from.
  rewrite foldl_app. cbn [foldl]. rewrite Hp.
  now apply LookupFacts.image_url_from_none.
Qed.

Lemma last_inline_part_wins_witness :
  image_url ([ {| inlineData := Some {| data := Some (js "AAAA") |} |} ]
             ++ {| inlineData := Some {| data := Some (js "BBBB") |} |}
             :: [ {| inlineData := None |} ])
  = data_url {| data := Some (js "BBBB") |}.
Proof.
  apply (last_inline_part_wins
           [ {| inlineData := Some {| data := Some (js "AAAA") |} |} ]
           [ {| inlineData := None |} ]
           {| inlineData := Some {| data := Some (js "BBBB") |} |}
           {| data := Some (js "BBBB") |}).
  - reflexivity.
  - repeat constructor.
Defined.

(** X11. The entry of a successful lookup carries the id made from the
    clock and the language pair of the state, also when the response of the
    model has keys of these names: the stamps come after the spread. *)
Theorem stamps_override_the_response
    (ai : Service) (now : Z) (q : jsstring) (st : AppState) (entry : JSObject) :
  result (performLookup ai now q st).1 = Some entry ->
  entry !! js "id" = Some (JString (Number_toString now)) /\
  entry !! js "targetLang" = Some (JString (targetLang st)) /\
  entry !! js "nativeLang" = Some (JString (nativeLang st)) /\
  exists url, entry !! js "imageUrl" = Some (JString url).
Proof.
  intros H. apply LookupFacts.performLookup_success in H
    as (resp & parsed & definition & imageResponse & ps
        & _ & _ & _ & _ & _ & _ & ->).
  destruct (LookupFacts.new_entry_stamps parsed now (image_url ps) st)
    as (Hid & Hurl & Htl & Hnl).
  repeat split; try assumption. eauto.
Qed.

Lemma stamps_override_the_response_witness :
  let entry :=
    new_entry (JObject [(js "id", JString (js "mine"));
                        (js "targetLang", JString (js "fr"))])
              1730000000000 [] english_spanish in
  entry !! js "id" = Some (JString (js "1730000000000")) /\
  entry !! js "targetLang" = Some (JString (js "es")) /\
  entry !! js "nativeLang" = Some (JString (js "en")) /\
  exists url, entry !! js "imageUrl" = Some (JString url).
Proof.
  apply (stamps_override_the_response
           (service (jsq "{'id':'mine','targetLang':'fr'}") (Ok (image_response [])))
           1730000000000 (js "hello") english_spanish).
  reflexivity.
Defined.

(** X12. A text response that parses to [null] aborts the lookup with a
    [TypeError], raised when the image prompt reads [parsed.definition]:
    no entry, and no image request. *)
Theorem null_response_aborts
    (ai : Service) (now : Z) (q : jsstring) (st : AppState)
    (resp : GenerateContentResponse) :
  ai (text_request q (label (targetLang st)) (label (nativeLang st))) = Ok resp ->
  JSON_parse (or_else (text resp) (js "{}")) = Ok JNull ->
  let r := performLookup ai now q st in
  result r.1 = None /\
  console r.2 = [TypeError] /\
  image_calls r.2 = [].
Proof.
  intros Hai Hparse. cbv zeta. rewrite LookupFacts.performLookup_cases. cbv zeta.
  rewrite Hai, Hparse. repeat split.
Qed.

Lemma null_response_aborts_witness :
  let r := performLookup (service (js "null") (Ok (image_response [])))
                         1730000000000 (js "hello") english_spanish in
  result r.1 = None /\
  console r.2 = [TypeError] /\
  image_calls r.2 = [].
Proof.
  apply (null_response_aborts
           (service (js "null") (Ok (image_response [])))
           1730000000000 (js "hello") english_spanish
           (text_response (js "null")));
    reflexivity.
Defined.

(** X13. A text response without text, or with the empty text, is read as
    [{}]: the lookup goes on to the image, and with an image response that
    has a list of parts it yields an entry whose keys are the four stamped
    ones and no other. *)
Theorem missing_text_gives_a_bare_entry
    (ai : Service) (now : Z) (q : jsstring) (st : AppState)
    (resp imageResponse : GenerateContentResponse) (ps : list Part) :
  ai (text_request q (label (targetLang st)) (label (nativeLang st))) = Ok resp ->
  text resp = None \/ text resp = Some [] ->
  ai (image_request q JUndefined) = Ok imageResponse ->
  image_parts imageResponse = Ok ps ->
  exists entry,
    result (performLookup ai now q st).1 = Some entry /\
    forall key, is_Some (entry !! key) <-> key ∈ stamped_keys.
Proof.
  intros Hai Htext Himg Hparts.
  rewrite LookupFacts.performLookup_cases. cbv zeta. rewrite Hai.
  assert (Hor : or_else (text resp) (js "{}") = js "{}")
    by (destruct Htext as [-> | ->]; reflexivity).
  rewrite Hor.
  change (JSON_parse (js "{}")) with (Ok (JObject [])). cbv beta iota.
  change (Get (JObject []) (js "definition")) with (Ok JUndefined). cbv beta iota.
  change (has_string JUndefined) with true. cbv beta iota.
  rewrite Himg, Hparts. eexists. split; [reflexivity|].
  intros key. unfold new_entry, stamped_keys.
  change (spread (JObject [])) with (∅ : JSObject).
  rewrite !lookup_insert_is_Some, lookup_empty, is_Some_alt.
  rewrite !elem_of_cons, elem_of_nil. split; [intuition congruence|].
  intros [->|[->|[->|[->|[]]]]];
    repeat (first [left; reflexivity | right; split; [vm_compute; discriminate|]]).
Qed.

Lemma missing_text_gives_a_bare_entry_witness :
  exists entry,
    result (performLookup
              (fun req => if bool_decide (model req = image_model)
                          then Ok (image_response [])
                          else Ok {| text := None; candidates := None |})
              1730000000000 (js "hello") english_spanish).1 = Some entry /\
    forall key, is_Some (entry !! key) <-> key ∈ stamped_keys.
Proof.
  apply (missing_text_gives_a_bare_entry
           (fun req => if bool_decide (model req = image_model)
                       then Ok (image_response [])
                       else Ok {| text := None; candidates := None |})
           1730000000000 (js "hello") english_spanish
           {| text := None; candidates := None |} (image_response []) []).
  - reflexivity.
  - left. reflexivity.
  - reflexivity.
  - reflexivity.
Defined.

(** X14. The catalogue resolves each of its ten codes to its name, and no
    other string to anything. *)
Theorem label_resolves_the_catalogue :
  (forall l, l ∈ LANGUAGES -> label (code l) = Some (name l)) /\
  (forall c, (forall l, l ∈ LANGUAGES -> code l <> c) -> label c = None).
Proof.
  split.
  - intros l Hl. unfold LANGUAGES in Hl.
    repeat (apply elem_of_cons in Hl as [->|Hl]; [reflexivity|]).
    inversion Hl.
  - intros c Hc. unfold label.
    destruct (List.find _ LANGUAGES) as [l|] eqn:Hf; [|reflexivity].
    apply find_some in Hf as [Hin Heq]. apply bool_decide_eq_true in Heq.
    destruct (Hc l); [now apply list_elem_of_In | exact Heq].
Qed.

End LookupMore.

(* ================================================================== *)
(** * The set-up profile: [handleSetup] and the start-up effect        *)
(* ================================================================== *)

Module SetupFacts.
Import Hydration Setup.

(** ** Quoting a string and parsing it back *)

Lemma hex_value_digit d : 0 <= d < 16 -> hex_value (hex_digit d) = Some d.
Proof.
  intros Hd. unfold hex_value, hex_digit, is_digit.
  repeat (case_match; try lia; try (f_equal; lia)).
Qed.

Lemma parse_plain c tail :
  c <> 34 -> c <> 92 -> 32 <= c ->
  parse_string_body (c :: tail) =
  '(str, rest) ← parse_string_body tail; Some (c :: str, rest).
Proof.
  intros H34 H92 H32. cbn [parse_string_body].
  destruct (Z.eqb_spec c 34); [contradiction|].
  destruct (Z.eqb_spec c 92); [contradiction|].
  destruct (Z.ltb_spec c 32); [lia|]. reflexivity.
Qed.

Lemma parse_unicode_escape c tail :
  is_code_unit c ->
  parse_string_body (unicode_escape c ++ tail) =
  '(str, rest) ← parse_string_body tail; Some (c :: str, rest).
Proof.
  unfold is_code_unit. intros Hc. unfold unicode_escape.
  cbn [app parse_string_body Z.eqb Pos.eqb].
  assert (H1 : 0 <= c / 4096 < 16)
    by (split; [apply Z.div_pos | apply Z.div_lt_upper_bound]; lia).
  pose proof (Z.mod_pos_bound (c / 256) 16 ltac:(lia)) as H2.
  pose proof (Z.mod_pos_bound (c / 16) 16 ltac:(lia)) as H3.
  pose proof (Z.mod_pos_bound c 16 ltac:(lia)) as H4.
  rewrite !hex_value_digit by assumption. cbn [mbind option_bind].
  replace (c / 4096 * 4096 + (c / 256) mod 16 * 256 + (c / 16) mod 16 * 16 + c mod 16)
    with c by (Z.div_mod_to_equations; lia).
  reflexivity.
Qed.

Lemma parse_quote_unit c tail :
  is_code_unit c ->
  parse_string_body (quote_unit c ++ tail) =
  '(str, rest) ← parse_string_body tail; Some (c :: str, rest).
Proof.
  intros Hc. unfold quote_unit.
  destruct (Z.eqb_spec c 8) as [->|]; [reflexivity|].
  destruct (Z.eqb_spec c 9) as [->|]; [reflexivity|].
  destruct (Z.eqb_spec c 10) as [->|]; [reflexivity|].
  destruct (Z.eqb_spec c 12) as [->|]; [reflexivity|].
  destruct (Z.eqb_spec c 13) as [->|]; [reflexivity|].
  destruct (Z.eqb_spec c 34) as [->|]; [reflexivity|].
  destruct (Z.eqb_spec c 92) as [->|]; [reflexivity|].
  destruct (_ || _) eqn:Hesc.
  - now apply parse_unicode_escape.
  - apply orb_false_iff in Hesc as [Hesc _]. apply orb_false_iff in Hesc as [Hlt _].
    apply Z.ltb_ge in Hlt. now apply parse_plain.
Qed.

Lemma parse_quote_units_bounded (k : nat) (s tail : jsstring) :
  (List.length s <= k)%nat ->
  Forall is_code_unit s ->
  parse_string_body (quote_units s ++ 34 :: tail) = Some (s, tail).
Proof.
  revert s. induction k as [|k IH]; intros s Hlen Hs.
  - destruct s; [reflexivity | cbn in Hlen; lia].
  - destruct s as [|c rest]; [reflexivity|].
    inversion_clear Hs as [|? ? Hc Hrest]. cbn in Hlen.
    cbn [quote_units].
    destruct (is_leading_surrogate c) eqn:Hlead.
    + unfold is_leading_surrogate in Hlead.
      apply andb_true_iff in Hlead as [Hl1 Hl2].
      apply Z.leb_le in Hl1. apply Z.leb_le in Hl2.
      destruct rest as [|d rest'].
      * rewrite parse_unicode_escape by assumption. reflexivity.
      * destruct (is_trailing_surrogate d) eqn:Htrail.
        -- unfold is_trailing_surrogate in Htrail.
           apply andb_true_iff in Htrail as [Ht1 Ht2].
           apply Z.leb_le in Ht1. apply Z.leb_le in Ht2.
           inversion_clear Hrest as [|? ? Hd Hrest'].
           cbn [app]. rewrite parse_plain by lia. rewrite parse_plain by lia.
           rewrite IH by (assumption || (cbn in Hlen; lia)). reflexivity.
        -- rewrite <- app_assoc, parse_unicode_escape by assumption.
           rewrite IH by (assumption || lia). reflexivity.
    + rewrite <- app_assoc, parse_quote_unit by assumption.
      rewrite IH by (assumption || lia). reflexivity.
Qed.

(** A quoted string parses back to the string. *)
Lemma parse_quote_units (s tail : jsstring) :
  Forall is_code_unit s ->
  parse_string_body (quote_units s ++ 34 :: tail) = Some (s, tail).
Proof. apply (parse_quote_units_bounded (List.length s)). lia. Qed.

(** ** The profile *)

Lemma stringify_profile_shape n t :
  stringify_profile n t =
  jsq "{'native':'" ++ quote_units n ++ 34 ::
    (jsq ",'target':'" ++ quote_units t ++ 34 :: js "}").
Proof.
  unfold stringify_profile, JSON_stringify_string.
  cbn [app]. change (jsq "{'native':") with [123; 34; 110; 97; 116; 105; 118; 101; 34; 58].
  cbn [app]. repeat f_equal. rewrite <- !app_assoc. cbn [app]. repeat f_equal.
Qed.

Lemma parse_profile fuel n t :
  Forall is_code_unit n -> Forall is_code_unit t ->
  parse_value (S (S (S (S fuel)))) (stringify_profile n t) =
  Some (JObject [(js "native", JString n); (js "target", JString t)], []).
Proof.
  intros Hn Ht. rewrite stringify_profile_shape.
  change (jsq "{'native':'") with [123; 34; 110; 97; 116; 105; 118; 101; 34; 58; 34].
  change (jsq ",'target':'") with [44; 34; 116; 97; 114; 103; 101; 116; 34; 58; 34].
  change (js "}") with [125].
  cbn [app parse_value parse_members skip_ws is_json_whitespace parse_string_body
       Z.eqb Pos.eqb Z.ltb Z.compare Pos.compare Pos.compare_cont orb andb
       mbind option_bind unescape].
  rewrite parse_quote_units by assumption.
  cbn [app parse_value parse_members skip_ws is_json_whitespace parse_string_body
       Z.eqb Pos.eqb Z.ltb Z.compare Pos.compare Pos.compare_cont orb andb
       mbind option_bind unescape].
  rewrite parse_quote_units by assumption.
  reflexivity.
Qed.

Lemma JSON_parse_profile n t :
  Forall is_code_unit n -> Forall is_code_unit t ->
  JSON_parse (stringify_profile n t) =
  Ok (JObject [(js "native", JString n); (js "target", JString t)]).
Proof.
  intros Hn Ht. unfold JSON_parse.
  assert (Hlen : exists fuel,
             List.length (stringify_profile n t) = S (S (S fuel))).
  { rewrite stringify_profile_shape. cbn. eauto. }
  destruct Hlen as [fuel ->].
  now rewrite parse_profile.
Qed.

(** X15. On a first run, with neither blob stored (or stored empty), the
    start-up effect throws nothing and changes nothing. *)
Theorem first_run_changes_nothing (ls : Storage) (st : AppState) :
  getItem ls (js "ai_dict_notebook") = None \/
  getItem ls (js "ai_dict_notebook") = Some [] ->
  getItem ls (js "ai_dict_setup") = None \/
  getItem ls (js "ai_dict_setup") = Some [] ->
  hydrate ls st = Ok st.
Proof.
  intros Hn Hs. unfold hydrate, hydrate_notebook, hydrate_setup.
  destruct Hn as [-> | ->]; cbn [mbind Exc_bind];
    destruct Hs as [-> | ->]; reflexivity.
Qed.

Lemma first_run_changes_nothing_witness : hydrate ∅ initial = Ok initial.
Proof. apply (first_run_changes_nothing ∅ initial); left; reflexivity. Defined.



(** X17. The profile round trip: what [handleSetup] stores for two
    non-empty languages, the next start-up reads back as these two strings,
    with the application set up. *)
Theorem profile_round_trip
    (nativeLang targetLang : jsstring) (ls : Storage) (isSetup : bool)
    (st : AppState) :
  nativeLang <> [] -> targetLang <> [] ->
  Forall is_code_unit nativeLang -> Forall is_code_unit targetLang ->
  (handleSetup nativeLang targetLang ls isSetup).2 = true /\
  hydrate_setup (handleSetup nativeLang targetLang ls isSetup).1 st =
  Ok {| notebook := notebook st;
        Hydration.nativeLang := JString nativeLang;
        Hydration.targetLang := JString targetLang;
        Hydration.isSetup := true |}.
Proof.
  intros Hn Ht Hnu Htu. unfold handleSetup.
  destruct nativeLang as [|n0 n]; [contradiction|].
  destruct targetLang as [|t0 t]; [contradiction|].
  cbn [fst snd]. split; [reflexivity|].
  unfold hydrate_setup, getItem. rewrite lookup_insert_eq.
  pose proof (JSON_parse_profile (n0 :: n) (t0 :: t) Hnu Htu) as Hp.
  destruct (stringify_profile (n0 :: n) (t0 :: t)) as [|c s] eqn:Hs.
  - rewrite stringify_profile_shape in Hs. discriminate.
  - rewrite Hp. reflexivity.
Qed.

Lemma profile_round_trip_witness :
  (handleSetup (js "en") (js "es") ∅ false).2 = true /\
  hydrate_setup (handleSetup (js "en") (js "es") ∅ false).1 initial =
  Ok {| notebook := notebook initial;
        Hydration.nativeLang := JString (js "en");
        Hydration.targetLang := JString (js "es");
        Hydration.isSetup := true |}.
Proof.
  apply (profile_round_trip (js "en") (js "es") ∅ false initial).
  - discriminate.
  - discriminate.
  - repeat constructor; unfold is_code_unit; evaluate.
  - repeat constructor; unfold is_code_unit; evaluate.
Defined.

(** X18. [handleSetup] writes one key only, and nothing at all when a
    language is missing: going through the set-up again leaves the stored
    notebook as it is, and the next start-up reads the same notebook. *)
Theorem setup_keeps_the_notebook
    (nativeLang targetLang : jsstring) (ls : Storage) (isSetup : bool)
    (st : AppState) :
  (forall key, key <> js "ai_dict_setup" ->
     (handleSetup nativeLang targetLang ls isSetup).1 !! key = ls !! key) /\
  (nativeLang = [] \/ targetLang = [] ->
     handleSetup nativeLang targetLang ls isSetup = (ls, isSetup)) /\
  hydrate_notebook (handleSetup nativeLang targetLang ls isSetup).1 st
    = hydrate_notebook ls st.
Proof.
  assert (Hkey : forall key, key <> js "ai_dict_setup" ->
            (handleSetup nativeLang targetLang ls isSetup).1 !! key = ls !! key).
  { intros key Hk. unfold handleSetup.
    destruct nativeLang, targetLang; cbn [fst]; try reflexivity.
    now rewrite lookup_insert_ne. }
  split; [exact Hkey|]. split.
  - intros [-> | ->]; unfold handleSetup; [reflexivity|].
    destruct nativeLang; reflexivity.
  - unfold hydrate_notebook, getItem. rewrite Hkey; [reflexivity|].
    vm_compute. discriminate.
Qed.

Lemma setup_keeps_the_notebook_witness :
  let ls : Storage := {[ js "ai_dict_notebook" := js "[]" ]} in
  (forall key, key <> js "ai_dict_setup" ->
     (handleSetup (js "en") [] ls false).1 !! key = ls !! key) /\
  (js "en" = [] \/ @nil Z = [] -> handleSetup (js "en") [] ls false = (ls, false)) /\
  hydrate_notebook (handleSetup (js "en") [] ls false).1 initial
    = hydrate_notebook ls initial.
Proof.
  exact (setup_keeps_the_notebook (js "en") []
           {[ js "ai_dict_notebook" := js "[]" ]} false initial).
Defined.

End SetupFacts.

(* ================================================================== *)
(** * More on the notebook and the flashcards                          *)
(* ================================================================== *)

Module NotebookMore.
Import Notebook.

(** ** Removing and saving *)

(** X19. The remove button deletes every entry with the id of its row and
    nothing else, keeping the order of the rest; a second removal of the
    same entry, or the removal of an id the notebook does not hold, changes
    nothing. *)
Theorem remove_by_id (item : WordEntry) (nb : list WordEntry) :
  (forall n, n ∈ remove item nb <-> n ∈ nb /\ id n <> id item) /\
  sublist (remove item nb) nb /\
  remove item (remove item nb) = remove item nb /\
  ((forall n, n ∈ nb -> id n <> id item) -> remove item nb = nb).
Proof.
  unfold remove. split; [|split; [|split]].
  - intros n. rewrite list_elem_of_filter. tauto.
  - apply sublist_filter.
  - apply NotebookFacts.filter_all, Forall_forall.
    intros n Hn. now apply list_elem_of_filter in Hn as [Hn _].
  - intros H. apply NotebookFacts.filter_all, Forall_forall. exact H.
Qed.

Lemma remove_by_id_witness :
  let nb := [entry "1" "hola"; entry "2" "adios"] in
  (forall n, n ∈ remove (entry "3" "gato") nb <-> n ∈ nb /\ id n <> js "3") /\
  sublist (remove (entry "3" "gato") nb) nb /\
  remove (entry "3" "gato") (remove (entry "3" "gato") nb)
    = remove (entry "3" "gato") nb /\
  remove (entry "3" "gato") nb = nb.
Proof.
  destruct (remove_by_id (entry "3" "gato") [entry "1" "hola"; entry "2" "adios"])
    as (H1 & H2 & H3 & H4).
  cbv zeta. split; [exact H1|]. split; [exact H2|]. split; [exact H3|].
  apply H4. intros n Hn.
  repeat (apply elem_of_cons in Hn as [->|Hn]; [discriminate|]). inversion Hn.
Defined.

Lemma words_filter (P : WordEntry -> Prop) `{forall x, Decision (P x)} nb :
  NoDup (words nb) -> NoDup (words (filter P nb)).
Proof.
  unfold words. induction nb as [|n nb IH]; intros Hnd; [constructor|].
  cbn [fmap list_fmap] in Hnd. apply NoDup_cons in Hnd as [Hn Hnd].
  rewrite filter_cons. destruct (decide (P n)); [|now apply IH].
  cbn [fmap list_fmap]. apply NoDup_cons. split; [|now apply IH].
  intros Hin. apply Hn.
  apply list_elem_of_fmap in Hin as (m & Hw & Hm).
  apply list_elem_of_filter in Hm as [_ Hm].
  apply list_elem_of_fmap. eauto.
Qed.

Lemma toggle_unique e nb : NoDup (words nb) -> NoDup (words (toggle e nb)).
Proof.
  intros Hnd. unfold toggle.
  destruct (existsb _ nb) eqn:Hex.
  - now apply words_filter.
  - unfold words. rewrite fmap_app. apply NoDup_app. split; [exact Hnd|]. split.
    + intros w Hw Hin. apply list_elem_of_singleton in Hin. subst w.
      apply list_elem_of_fmap in Hw as (n & Hw & Hn).
      assert (Hs : existsb (fun n => bool_decide (word n = word e)) nb = true).
      { apply NotebookFacts.some_word_spec. exists n. eauto. }
      congruence.
    + apply NoDup_singleton.
Qed.

Lemma handle_unique e st :
  NoDup (words (notebook st)) -> NoDup (words (notebook (handle e st))).
Proof.
  intros Hnd.
  destruct (NotebookFacts.handle_notebook e st) as [->|[[i ->]| ->]];
    [exact Hnd| |]; unfold handle; destruct (mounted st); try exact Hnd.
  - cbn. destruct (activeTab st), (notebook st !! i); try exact Hnd.
    cbn. now apply words_filter.
  - cbn. destruct (activeTab st), (result st); try exact Hnd.
    cbn. now apply toggle_unique.
Qed.

(** X20. The notebook stays unique by word: if no two entries share a
    word, no sequence of events brings two entries with the same word into
    the notebook. *)
Theorem words_stay_unique (es : list Event) (st : AppState) :
  NoDup (words (notebook st)) -> NoDup (words (notebook (run es st))).
Proof.
  unfold run. revert st. induction es as [|e es IH]; intros st Hnd; cbn [foldl].
  - exact Hnd.
  - apply IH. now apply handle_unique.
Qed.

Lemma words_stay_unique_witness :
  NoDup (words (notebook
    (run [LookupResult (Some (entry "1" "hola")); ClickSave;
          LookupResult (Some (entry "2" "hola")); ClickSave; ClickSave;
          LookupResult (Some (entry "3" "gato")); ClickSave]
         {| notebook := []; result := None; activeTab := search;
            currentCardIndex := 0; isFlipped := false |}))).
Proof.
  apply (words_stay_unique
           [LookupResult (Some (entry "1" "hola")); ClickSave;
            LookupResult (Some (entry "2" "hola")); ClickSave; ClickSave;
            LookupResult (Some (entry "3" "gato")); ClickSave]).
  constructor.
Defined.

(** X21. The save button flips whether the word is saved: after a toggle
    of [e] some entry has the word of [e] exactly when none had it
    before. This is the condition that lights the button. *)
Theorem toggle_flips_membership (e : WordEntry) (nb : list WordEntry) :
  existsb (fun n => bool_decide (word n = word e)) (toggle e nb)
  = negb (existsb (fun n => bool_decide (word n = word e)) nb).
Proof.
  destruct (existsb _ nb) eqn:Hex.
  - cbn. apply not_true_is_false. intros H.
    apply NotebookFacts.some_word_spec in H as (n & Hin & Hw).
    unfold toggle in Hin. rewrite Hex in Hin.
    apply list_elem_of_filter in Hin as [Hne _]. contradiction.
  - cbn. apply NotebookFacts.some_word_spec. exists e. split; [|reflexivity].
    unfold toggle. rewrite Hex. apply elem_of_app. right. now left.
Qed.

(** X22. Opening a notebook row and pressing save unsaves it: the entry
    shown is the stored one, its word is in the notebook, so the toggle
    removes every entry with that word. *)
Theorem open_then_save_unsaves (st : AppState) (i : nat) (item : WordEntry) :
  activeTab st = notebook_tab ->
  notebook st !! i = Some item ->
  let st' := run [ClickOpen i; ClickSave] st in
  result st' = Some item /\
  activeTab st' = search /\
  notebook st' = filter (fun n => word n ≠ word item) (notebook st) /\
  item ∉ notebook st'.
Proof.
  intros Htab Hitem. cbv zeta. unfold run. cbn [foldl].
  rewrite (NotebookFacts.handle_mounted (ClickOpen i) st)
    by (apply NotebookFacts.mounted_off_study; rewrite Htab; discriminate).
  cbn [click]. rewrite Htab, Hitem.
  rewrite NotebookFacts.handle_mounted
    by (apply NotebookFacts.mounted_off_study; discriminate).
  cbn.
  assert (Hin : item ∈ notebook st) by (eapply list_elem_of_lookup_2; eauto).
  rewrite NotebookFacts.toggle_present by (exists item; eauto).
  repeat split. intros Hn. apply list_elem_of_filter in Hn as [Hn _].
  now apply Hn.
Qed.

Lemma open_then_save_unsaves_witness :
  let st := {| notebook := [entry "1" "hola"; entry "2" "adios"];
               result := None; activeTab := notebook_tab;
               currentCardIndex := 0; isFlipped := false |} in
  let st' := run [ClickOpen 1; ClickSave] st in
  result st' = Some (entry "2" "adios") /\
  activeTab st' = search /\
  notebook st' = filter (fun n => word n ≠ word (entry "2" "adios")) (notebook st) /\
  entry "2" "adios" ∉ notebook st'.
Proof.
  apply (open_then_save_unsaves
           {| notebook := [entry "1" "hola"; entry "2" "adios"];
              result := None; activeTab := notebook_tab;
              currentCardIndex := 0; isFlipped := false |}
           1 (entry "2" "adios")); reflexivity.
Defined.

(** ** Walking through the cards *)

Lemma walking_study_shown st : walking st -> study_shown st = true.
Proof. intros (Htab & Hb & Hex). now apply NotebookFacts.in_bounds_study_shown. Qed.

Lemma next_step st :
  walking st ->
  let st' := handle ClickNext st in
  walking st' /\ notebook st' = notebook st /\
  currentCardIndex st' = Z.min (currentCardIndex st + 1) (size st - 1).
Proof.
  intros Hw. pose proof (walking_study_shown st Hw) as Hs.
  destruct Hw as (Htab & Hb & Hex). cbv zeta.
  rewrite NotebookFacts.handle_mounted
    by now apply NotebookFacts.study_shown_mounted.
  cbn. rewrite Hs. cbn.
  unfold walking, next_disabled, in_bounds in *.
  destruct (Z.eqb_spec (currentCardIndex st) (size st - 1)); cbn.
  - repeat split; try assumption; lia.
  - unfold size in *. cbn. repeat split; try assumption; lia.
Qed.

Lemma previous_step st :
  walking st ->
  let st' := handle ClickPrevious st in
  walking st' /\ notebook st' = notebook st /\
  currentCardIndex st' = Z.max (currentCardIndex st - 1) 0.
Proof.
  intros Hw. pose proof (walking_study_shown st Hw) as Hs.
  destruct Hw as (Htab & Hb & Hex). cbv zeta.
  rewrite NotebookFacts.handle_mounted
    by now apply NotebookFacts.study_shown_mounted.
  cbn. rewrite Hs. cbn.
  unfold walking, previous_disabled, in_bounds in *.
  destruct (Z.eqb_spec (currentCardIndex st) 0); cbn.
  - repeat split; try assumption; lia.
  - unfold size in *. cbn. repeat split; try assumption; lia.
Qed.

Lemma run_cons e es st : run (e :: es) st = run es (handle e st).
Proof. reflexivity. Qed.

Lemma next_steps k st :
  walking st ->
  let st' := run (replicate k ClickNext) st in
  walking st' /\ notebook st' = notebook st /\
  currentCardIndex st' = Z.min (currentCardIndex st + Z.of_nat k) (size st - 1).
Proof.
  revert st. induction k as [|k IH]; intros st Hw.
  - cbn. destruct Hw as (? & Hb & ?). unfold in_bounds in Hb.
    repeat split; try assumption; lia.
  - cbn zeta. rewrite replicate_S, run_cons.
    destruct (next_step st Hw) as (H1 & H3 & H4).
    destruct (IH (handle ClickNext st) H1) as (I1 & I3 & I4).
    split; [exact I1|]. split; [congruence|].
    rewrite I4, H4. unfold size. rewrite H3.
    destruct Hw as (_ & Hb & _). unfold in_bounds, size in Hb. lia.
Qed.

Lemma previous_steps k st :
  walking st ->
  let st' := run (replicate k ClickPrevious) st in
  walking st' /\ notebook st' = notebook st /\
  currentCardIndex st' = Z.max (currentCardIndex st - Z.of_nat k) 0.
Proof.
  revert st. induction k as [|k IH]; intros st Hw.
  - cbn. destruct Hw as (? & Hb & ?). unfold in_bounds in Hb.
    repeat split; try assumption; lia.
  - cbn zeta. rewrite replicate_S, run_cons.
    destruct (previous_step st Hw) as (H1 & H3 & H4).
    destruct (IH (handle ClickPrevious st) H1) as (I1 & I3 & I4).
    split; [exact I1|]. split; [congruence|].
    rewrite I4, H4.
    destruct Hw as (_ & Hb & _). unfold in_bounds, size in Hb. lia.
Qed.

(** X23. Navigation saturates. On the study tab, from card [i] of a
    notebook of [N] entries that all have an example, [k] clicks on Next
    lead to card [min (i + k) (N - 1)] and [k] clicks on Previous to card
    [max (i - k) 0]; the notebook is not touched and the flashcard is on
    screen at the end of either walk. *)
Theorem navigation_saturates (k : nat) (st : AppState) :
  activeTab st = study -> in_bounds st ->
  Forall has_example (notebook st) ->
  currentCardIndex (run (replicate k ClickNext) st)
    = Z.min (currentCardIndex st + Z.of_nat k) (size st - 1) /\
  currentCardIndex (run (replicate k ClickPrevious) st)
    = Z.max (currentCardIndex st - Z.of_nat k) 0 /\
  notebook (run (replicate k ClickNext) st) = notebook st /\
  notebook (run (replicate k ClickPrevious) st) = notebook st /\
  study_shown (run (replicate k ClickNext) st) = true /\
  study_shown (run (replicate k ClickPrevious) st) = true.
Proof.
  intros Htab Hb Hex.
  assert (Hw : walking st) by (repeat split; assumption || apply Hb).
  destruct (next_steps k st Hw) as (N1 & N3 & N4).
  destruct (previous_steps k st Hw) as (P1 & P3 & P4).
  repeat split; try assumption; now apply walking_study_shown.
Qed.

(** Three cards, each with its example: five clicks on Next from the first
    card stop on the third, five clicks on Previous from there lead back to
    the first. *)
Lemma navigation_saturates_witness :
  let nb := [entry "1" "hola"; entry "2" "adios"; entry "3" "gato"] in
  let st := run [ClickNext] (studying nb) in
  currentCardIndex st = 1 /\
  currentCardIndex (run (replicate 5 ClickNext) st) = 2 /\
  currentCardIndex (run (replicate 5 ClickPrevious) st) = 0 /\
  notebook (run (replicate 5 ClickNext) st) = nb /\
  notebook (run (replicate 5 ClickPrevious) st) = nb /\
  study_shown (run (replicate 5 ClickNext) st) = true /\
  study_shown (run (replicate 5 ClickPrevious) st) = true.
Proof.
  cbv zeta. split; [reflexivity|].
  apply (navigation_saturates 5
           (run [ClickNext]
                (studying [entry "1" "hola"; entry "2" "adios"; entry "3" "gato"]))).
  - reflexivity.
  - split; vm_compute; [discriminate | reflexivity].
  - repeat constructor; discriminate.
Defined.

(** X24. What each control can touch: only the save and remove buttons
    change the notebook, and only the card, Previous and Next change the
    session. *)
Theorem controls_are_separate (e : Event) (st : AppState) :
  (notebook (handle e st) <> notebook st ->
     e = ClickSave \/ exists i, e = ClickRemove i) /\
  (session (handle e st) <> session st ->
     e = ClickCard \/ e = ClickPrevious \/ e = ClickNext).
Proof.
  split.
  - intros Hn. destruct (NotebookFacts.handle_notebook e st) as [H|[H|H]];
      [contradiction | now right | now left].
  - intros Hs.
    destruct e; try (exfalso; apply Hs;
                     apply NotebookFacts.handle_keeps_session; discriminate);
      auto.
Qed.

Lemma controls_are_separate_witness :
  let st := handle (LookupResult (Some (entry "1" "hola")))
                   {| notebook := []; result := None; activeTab := search;
                      currentCardIndex := 0; isFlipped := false |} in
  notebook (handle ClickSave st) <> notebook st /\
  (ClickSave = ClickSave \/ exists i, ClickSave = ClickRemove i) /\
  session (handle ClickCard (studying [entry "1" "hola"]))
    <> session (studying [entry "1" "hola"]) /\
  (ClickCard = ClickCard \/ ClickCard = ClickPrevious \/ ClickCard = ClickNext).
Proof.
  cbv zeta. split; [discriminate|]. split.
  - apply (proj1 (controls_are_separate ClickSave
                    (handle (LookupResult (Some (entry "1" "hola")))
                       {| notebook := []; result := None; activeTab := search;
                          currentCardIndex := 0; isFlipped := false |}))).
    discriminate.
  - split; [discriminate|].
    apply (proj2 (controls_are_separate ClickCard (studying [entry "1" "hola"]))).
    discriminate.
Defined.

End NotebookMore.

(* ================================================================== *)
(** * Speech, tutor and story                                          *)
(* ================================================================== *)

Module SpeechFacts.
Import Base64 Audio Lookup Speech.

Lemma base64_encode_not_empty b : b <> [] -> base64_encode b <> [].
Proof.
  intros Hb. destruct b as [|x [|y [|z rest]]]; [contradiction| | |]; discriminate.
Qed.

(** X25. Speech end to end. When the service answers with the base64
    encoding of a PCM payload of even length [L >= 2], and the context
    takes one channel at 24000 Hz, [playTTS] starts exactly one more
    source, on a mono buffer of [L/2] frames at 24000 Hz whose sample [i]
    is [pcm[i] / 32768], and logs nothing. *)
Theorem speech_is_played
    (browser : AudioContext) (ai : Service) (text voice : jsstring) (p : Player)
    (response : GenerateContentResponse) (payload : list Z) :
  let L := Z.of_nat (List.length payload) in
  let ctx := default browser (audioContextRef p) in
  ai (speech_request text voice) = Ok response ->
  first_inline_data response = Some (base64_encode payload) ->
  Forall is_byte payload ->
  L mod 2 = 0 ->
  1 <= L / 2 < 4294967296 ->
  1 <= maxChannels ctx ->
  minSampleRate ctx <= 24000 <= maxSampleRate ctx ->
  exists b,
    playTTS browser ai text voice p =
      ({| audioContextRef := Some ctx; started := started p ++ [b] |},
       {| calls := [speech_request text voice]; console := [] |}) /\
    numberOfChannels b = 1 /\
    frames b = L / 2 /\
    sampleRate b = 24000 /\
    forall i, 0 <= i < L / 2 ->
      exists v, pcm_sample payload i = Some v /\
                sample_at b 0 i = Some (Num (inject_Z v / 32768)).
Proof.
  intros L ctx Hai Hdata Hbytes Heven HL Hmax Hrate. subst L.
  assert (Hne : payload <> []).
  { intros ->. change (Z.of_nat (List.length (@nil Z)) / 2) with 0 in HL. lia. }
  destruct (AudioFacts.decodeAudioData_spec ctx payload 24000 1)
    as (b & Hb & H1 & H2 & H3 & Hin & _);
    [assumption | lia | rewrite Z.div_1_r; lia | assumption |].
  cbv zeta in *. rewrite Z.div_1_r in *.
  exists b. split; [|split; [assumption|split; [assumption|split; [assumption|]]]].
  - unfold playTTS. cbv zeta.
    assert (Hctx : audioContextRef (initAudio browser p) = Some ctx).
    { unfold initAudio, ctx. destruct (audioContextRef p) eqn:E; [exact E | reflexivity]. }
    assert (Hst : started (initAudio browser p) = started p).
    { unfold initAudio. destruct (audioContextRef p); reflexivity. }
    rewrite Hai, Hdata, Hctx.
    destruct (base64_encode payload) as [|c s] eqn:He;
      [now apply base64_encode_not_empty in He|].
    unfold decode_speech. rewrite <- He.
    rewrite (Base64Facts.decode_atob _ _ (Base64Facts.atob_encode payload Hbytes)).
    cbn [mbind Exc_bind]. rewrite Hb, Hst. reflexivity.
  - intros i Hi. destruct (Hin 0 i ltac:(lia) Hi) as (v & Hv & Hs).
    exists v. split; [|exact Hs].
    now replace (i * 1 + 0) with i in Hv by lia.
Qed.

Lemma speech_is_played_witness :
  let payload := [0; 0; 255; 127; 0; 128] in
  let ai : Service := fun _ => Ok (speech_response (base64_encode payload)) in
  exists b,
    playTTS audioContext ai (js "hola") Kore silent =
      ({| audioContextRef := Some audioContext; started := [b] |},
       {| calls := [speech_request (js "hola") Kore]; console := [] |}) /\
    numberOfChannels b = 1 /\
    frames b = 3 /\
    sampleRate b = 24000 /\
    forall i, 0 <= i < 3 ->
      exists v, pcm_sample payload i = Some v /\
                sample_at b 0 i = Some (Num (inject_Z v / 32768)).
Proof.
  apply (speech_is_played audioContext
           (fun _ => Ok (speech_response (base64_encode [0; 0; 255; 127; 0; 128])))
           (js "hola") Kore silent
           (speech_response (base64_encode [0; 0; 255; 127; 0; 128]))
           [0; 0; 255; 127; 0; 128]).
  - reflexivity.
  - reflexivity.
  - repeat constructor; unfold is_byte; lia.
  - reflexivity.
  - evaluate.
  - evaluate.
  - evaluate.
Defined.

(** X26. Whatever happens, a call of [playTTS] sends one request, leaves
    the sources already started as they are and starts at most one more;
    when it logs an error it starts none. The context is created by the
    first call and kept by every later one. *)
Theorem playTTS_is_contained
    (browser : AudioContext) (ai : Service) (text voice : jsstring) (p : Player) :
  let r := playTTS browser ai text voice p in
  calls r.2 = [speech_request text voice] /\
  audioContextRef r.1 = Some (default browser (audioContextRef p)) /\
  (started r.1 = started p \/
   exists b, started r.1 = started p ++ [b] /\ console r.2 = []) /\
  (console r.2 <> [] -> started r.1 = started p).
Proof.
  cbv zeta. unfold playTTS. cbv zeta.
  assert (Hctx : audioContextRef (initAudio browser p)
                 = Some (default browser (audioContextRef p))).
  { unfold initAudio. destruct (audioContextRef p) eqn:E; [exact E | reflexivity]. }
  assert (Hst : started (initAudio browser p) = started p).
  { unfold initAudio. destruct (audioContextRef p); reflexivity. }
  destruct (ai _) as [response|e]; [|cbn; rewrite Hctx, Hst; auto].
  rewrite Hctx.
  destruct (first_inline_data response) as [[|c s]|];
    try (cbn; rewrite Hctx, Hst; repeat split; auto; fail).
  destruct (decode_speech _ _) as [b|e]; cbn; rewrite ?Hctx, ?Hst.
  - repeat split; eauto. intros H. now destruct H.
  - repeat split; auto.
Qed.

(** X27. What makes [playTTS] play nothing: a rejected request is logged;
    a response with no inline data, or with empty data, is dropped in
    silence; data that is not base64 is logged as
    [InvalidCharacterError]. *)
Theorem playTTS_failures
    (browser : AudioContext) (ai : Service) (text voice : jsstring) (p : Player) :
  let r := playTTS browser ai text voice p in
  (forall e, ai (speech_request text voice) = Throw e ->
     started r.1 = started p /\ console r.2 = [e]) /\
  (forall response,
     ai (speech_request text voice) = Ok response ->
     first_inline_data response = None \/ first_inline_data response = Some [] ->
     started r.1 = started p /\ console r.2 = []) /\
  (forall response base64Audio e,
     ai (speech_request text voice) = Ok response ->
     first_inline_data response = Some base64Audio ->
     atob base64Audio = Throw e ->
     started r.1 = started p /\ console r.2 = [InvalidCharacterError]).
Proof.
  cbv zeta. unfold playTTS. cbv zeta.
  assert (Hst : started (initAudio browser p) = started p).
  { unfold initAudio. destruct (audioContextRef p); reflexivity. }
  assert (Hctx : exists ctx, audioContextRef (initAudio browser p) = Some ctx).
  { unfold initAudio. destruct (audioContextRef p) eqn:E; eauto. }
  destruct Hctx as [ctx Hctx].
  split; [|split].
  - intros e ->. auto.
  - intros response -> [-> | ->]; auto.
  - intros response base64Audio e -> -> Ha. rewrite Hctx.
    destruct base64Audio as [|c s]; [auto|].
    + split; [exact Hst|]. exfalso. revert Ha. vm_compute. discriminate.
    + unfold decode_speech. rewrite (Base64Facts.decode_throws _ _ Ha).
      cbn. rewrite (DecodingFacts.atob_only_error _ _ Ha). auto.
Qed.

Lemma playTTS_failures_witness :
  (let r := playTTS audioContext (fun _ => Throw ServiceError) (js "hola") Kore silent in
   started r.1 = [] /\ console r.2 = [ServiceError]) /\
  (let r := playTTS audioContext (fun _ => Ok (image_response [])) (js "hola") Kore silent in
   started r.1 = [] /\ console r.2 = []) /\
  (let r := playTTS audioContext (fun _ => Ok (speech_response (js "a_b")))
                    (js "hola") Kore silent in
   started r.1 = [] /\ console r.2 = [InvalidCharacterError]).
Proof.
  split; [|split].
  - apply (proj1 (playTTS_failures audioContext (fun _ => Throw ServiceError)
                    (js "hola") Kore silent) ServiceError).
    reflexivity.
  - apply (proj1 (proj2 (playTTS_failures audioContext
                           (fun _ => Ok (image_response []))
                           (js "hola") Kore silent)) (image_response [])).
    + reflexivity.
    + left. reflexivity.
  - apply (proj2 (proj2 (playTTS_failures audioContext
                           (fun _ => Ok (speech_response (js "a_b")))
                           (js "hola") Kore silent))
             (speech_response (js "a_b")) (js "a_b") InvalidCharacterError);
      reflexivity.
Defined.

End SpeechFacts.

Module TutorFacts.
Import Tutor.

(** ** [trim] *)

Lemma trim_start_blank s : Forall (fun c => is_js_whitespace c = true) s -> trim_start s = [].
Proof.
  induction 1 as [|c s Hc _ IH]; [reflexivity|]. cbn. now rewrite Hc.
Qed.

Lemma trim_start_keeps c s :
  c ∈ s -> is_js_whitespace c = false -> c ∈ trim_start s.
Proof.
  intros Hin Hc. induction s as [|x s IH]; [inversion Hin|].
  cbn. destruct (is_js_whitespace x) eqn:Hx; [|exact Hin].
  apply elem_of_cons in Hin as [->|Hin]; [congruence | now apply IH].
Qed.

Lemma trim_blank s : Forall (fun c => is_js_whitespace c = true) s -> trim s = [].
Proof. intros H. unfold trim. now rewrite (trim_start_blank s H). Qed.

Lemma trim_not_blank c s :
  c ∈ s -> is_js_whitespace c = false -> trim s <> [].
Proof.
  intros Hin Hc Htrim.
  assert (H : c ∈ trim s).
  { unfold trim. apply list_elem_of_In, in_rev. rewrite rev_involutive.
    apply list_elem_of_In, trim_start_keeps; [|exact Hc].
    apply list_elem_of_In, in_rev. rewrite rev_involutive.
    now apply list_elem_of_In, trim_start_keeps. }
  rewrite Htrim in H. inversion H.
Qed.

(** X28. A message made of white space only, or sent while no entry is
    shown, is a no-op: the state is unchanged, input included, and nothing
    is sent to the service. *)
Theorem blank_message_is_ignored (chat : ChatService) (st : AppState) :
  Forall (fun c => is_js_whitespace c = true) (chatInput st) \/ result st = None ->
  sendMessage chat st = (st, []).
Proof.
  intros [H|H]; unfold sendMessage.
  - now rewrite (trim_blank _ H).
  - rewrite H. now destruct (trim (chatInput st)).
Qed.

Lemma blank_message_is_ignored_witness :
  let st := {| chatInput := js "   "; result := Some ∅; chatHistory := [];
               targetLang := js "es"; nativeLang := js "en" |} in
  sendMessage (fun _ _ => Ok (Some (js "hi"))) st = (st, []).
Proof.
  apply (blank_message_is_ignored (fun _ _ => Ok (Some (js "hi")))).
  left. repeat constructor.
Defined.

(** X29. Any other message adds exactly two lines to the conversation,
    whatever the service does: the input as typed, then a reply of the
    model that is never empty (the text of the response, or one of the two
    fixed apologies). The input box is cleared and one message is sent,
    under an instruction built from the word of the entry shown and the
    language pair. *)
Theorem message_adds_two_lines
    (chat : ChatService) (st : AppState) (c : Z) (entry : JSObject) :
  c ∈ chatInput st ->
  is_js_whitespace c = false ->
  result st = Some entry ->
  let r := sendMessage chat st in
  let instruction := Tutoring (prop entry (js "word")) (targetLang st) (nativeLang st) in
  exists reply,
    chatHistory r.1 =
      chatHistory st ++ [said Lookup.user (chatInput st); said Lookup.model_role reply] /\
    reply <> [] /\
    (forall t, chat instruction (chatInput st) = Ok (Some t) -> t <> [] -> reply = t) /\
    (forall e, chat instruction (chatInput st) = Throw e -> reply = connection_error) /\
    chatInput r.1 = [] /\
    result r.1 = result st /\
    r.2 = [(instruction, chatInput st)].
Proof.
  intros Hin Hc Hres. cbv zeta. unfold sendMessage.
  pose proof (trim_not_blank c (chatInput st) Hin Hc) as Ht.
  destruct (trim (chatInput st)) as [|x xs]; [contradiction|].
  rewrite Hres. cbn [fst snd chatHistory chatInput result].
  eexists. split; [now rewrite <- app_assoc|].
  split; [|split; [|split; [|repeat split]]].
  - destruct (chat _ _) as [[[|t0 t]|]|e]; discriminate.
  - intros t -> Hne. destruct t; [contradiction | reflexivity].
  - intros e ->. reflexivity.
Qed.

Lemma message_adds_two_lines_witness :
  let st := {| chatInput := js "why?"; result := Some ∅; chatHistory := [];
               targetLang := js "es"; nativeLang := js "en" |} in
  let chat : ChatService := fun _ _ => Throw ServiceError in
  let r := sendMessage chat st in
  let instruction := Tutoring (prop ∅ (js "word")) (targetLang st) (nativeLang st) in
  exists reply,
    chatHistory r.1 =
      chatHistory st ++ [said Lookup.user (chatInput st); said Lookup.model_role reply] /\
    reply <> [] /\
    (forall t, chat instruction (chatInput st) = Ok (Some t) -> t <> [] -> reply = t) /\
    (forall e, chat instruction (chatInput st) = Throw e -> reply = connection_error) /\
    chatInput r.1 = [] /\
    result r.1 = result st /\
    r.2 = [(instruction, chatInput st)].
Proof.
  apply (message_adds_two_lines (fun _ _ => Throw ServiceError)
           {| chatInput := js "why?"; result := Some ∅; chatHistory := [];
              targetLang := js "es"; nativeLang := js "en" |}
           119 ∅).
  - vm_compute. constructor.
  - reflexivity.
  - reflexivity.
Defined.

End TutorFacts.

Module StoryFacts.
Import Lookup Story.

(** X30. [generateStory] does nothing on a notebook of fewer than two
    entries: no request, no change. Otherwise it sends one request, with
    the words of the notebook joined in order, and ends with the loading
    flag down and the notebook as it was; a response sets the story to its
    text, or to a fixed apology when the text is missing or empty; a
    rejection is logged and leaves the story as it was. *)
Theorem story_outcomes (ai : Service) (st : AppState) :
  let r := generateStory ai st in
  ((List.length (notebook st) < 2)%nat -> r = (st, {| calls := []; console := [] |})) /\
  ((2 <= List.length (notebook st))%nat ->
     calls r.2 = [story_request st] /\
     contents (story_request st)
       = Compose (label (targetLang st))
                 (join (js ", ") (map Notebook.word (notebook st)))
                 (label (nativeLang st)) /\
     loading r.1 = false /\
     notebook r.1 = notebook st /\
     (forall resp, ai (story_request st) = Ok resp ->
        story r.1 = Some (or_else (text resp) no_story) /\
        story r.1 <> Some [] /\ console r.2 = []) /\
     (forall e, ai (story_request st) = Throw e ->
        story r.1 = story st /\ console r.2 = [e])).
Proof.
  cbv zeta. unfold generateStory. split.
  - intros Hlen.
    replace (Z.of_nat (List.length (notebook st)) <? 2) with true
      by (symmetry; apply Z.ltb_lt; lia).
    reflexivity.
  - intros Hlen.
    replace (Z.of_nat (List.length (notebook st)) <? 2) with false
      by (symmetry; apply Z.ltb_ge; lia).
    destruct (ai (story_request st)) as [resp|e]; cbn [fst snd calls console];
      (split; [reflexivity|]); (split; [reflexivity|]);
      (split; [reflexivity|]); (split; [reflexivity|]); split.
    + intros resp' [= <-]. split; [reflexivity|]. split; [|reflexivity].
      cbn. destruct (text resp) as [[|c s]|]; discriminate.
    + intros e'. discriminate.
    + intros resp'. discriminate.
    + intros e' [= <-]. split; reflexivity.
Qed.

Lemma story_outcomes_witness :
  let one := library [Notebook.entry "1" "hola"] in
  let two := library [Notebook.entry "1" "hola"; Notebook.entry "2" "adios"] in
  let ai : Service := fun _ => Ok (text_response (js "Hola y adios.")) in
  generateStory ai one = (one, {| calls := []; console := [] |}) /\
  calls (generateStory ai two).2 = [story_request two] /\
  contents (story_request two)
    = Compose (Some (js "Spanish")) (js "hola, adios") (Some (js "English")) /\
  story (generateStory ai two).1 = Some (js "Hola y adios.").
Proof.
  cbv zeta. split.
  - apply (proj1 (story_outcomes
                    (fun _ => Ok (text_response (js "Hola y adios.")))
                    (library [Notebook.entry "1" "hola"]))).
    cbn. lia.
  - destruct (proj2 (story_outcomes
                       (fun _ => Ok (text_response (js "Hola y adios.")))
                       (library [Notebook.entry "1" "hola";
                                 Notebook.entry "2" "adios"])))
      as (H1 & H2 & _ & _ & H5 & _); [cbn; lia|].
    split; [exact H1|]. split; [exact H2|].
    apply (H5 (text_response (js "Hola y adios."))). reflexivity.
Defined.

End StoryFacts.
